(** * musicgr: data preparation for an audio-genre classifier

    A shallow embedding of [utilities.py]: the path helpers
    ([id_from_path], [mp3_to_mel_path]), the metadata table
    ([read_metadata_file], [attach_onehot_encoding]) and the batch
    generator ([Batch_generator]).  Python values are modelled by explicit
    data (lists, integers as [Z], tagged unions for untyped cells), raised
    exceptions by the error monad [result], and the libraries the module
    calls into (the file system, librosa, the CSV reader of pandas) by type
    classes whose operations are parameters of the development.  The
    plotting and reporting helpers ([view_melspec] and
    [evaluation_utilities.py]) only draw and print, and are left out. *)

From Stdlib Require Import ZArith QArith Qround Ascii String DecimalString.
From stdpp Require Import base list strings sorting.

Close Scope Q_scope.
Open Scope Z_scope.

(* ===================================================================== *)
(** * Part I: the program                                                 *)
(* ===================================================================== *)

(** ** Python: exceptions, sequences, slices *)

Module Py.

(** Python [str] values: sequences of characters. *)
Definition str : Type := list ascii.

Definition lit (s : string) : str := list_ascii_of_string s.
Global Arguments lit : simpl never.

(** The exception classes that occur.  [FileNotFoundError] carries the
    message [mp3_to_mel_path] builds; [LibraryError] stands for whatever a
    called library raises on its own account (a file that cannot be
    decoded, a malformed CSV). *)
Inductive exn : Type :=
| ValueError
| IndexError
| KeyError
| AttributeError
| ZeroDivisionError
| OverflowError
| FileNotFoundError (msg : str)
| LibraryError.

Inductive result (A : Type) : Type :=
| Ok (a : A)
| Raise (e : exn).
Global Arguments Ok {A} a.
Global Arguments Raise {A} e.

Global Instance result_ret : MRet result := λ A a, Ok a.
Global Instance result_bind : MBind result := λ A B f r,
  match r with
  | Ok a => f a
  | Raise e => Raise e
  end.
Global Instance result_fmap : FMap result := λ A B f r,
  match r with
  | Ok a => Ok (f a)
  | Raise e => Raise e
  end.

(** [for x in xs: acc = body(acc, x)], stopping at the first exception. *)
Fixpoint foldM {A S : Type} (body : S → A → result S) (xs : list A) (acc : S)
  : result S :=
  match xs with
  | [] => Ok acc
  | x :: xs' => acc' ← body acc x; foldM body xs' acc'
  end.

(** [range(n)] *)
Definition range (n : nat) : list nat := seq 0 n.

(** [l[i]] for a non-negative index: [IndexError] past the end. *)
Definition index {A : Type} (l : list A) (i : nat) : result A :=
  match l !! i with
  | Some x => Ok x
  | None => Raise IndexError
  end.

(** [max(l)] on a list of sizes: [ValueError] on the empty list. *)
Definition max (l : list nat) : result nat :=
  match l with
  | [] => Raise ValueError
  | x :: l' => Ok (foldl Nat.max x l')
  end.

(** A slice bound as Python adjusts it against the length of the sequence
    (step 1): a negative bound counts from the end, and any bound is
    clipped to [0, len]. *)
Definition adjust_index (len i : Z) : Z :=
  if i <? 0 then Z.max 0 (i + len) else Z.min i len.

(** [l[start:stop]]; an omitted bound is [None]. *)
Definition slice {A : Type} (l : list A) (start stop : option Z) : list A :=
  let len := Z.of_nat (length l) in
  let lo := from_option (adjust_index len) 0 start in
  let hi := from_option (adjust_index len) len stop in
  take (Z.to_nat (hi - lo)) (drop (Z.to_nat lo) l).

End Py.
Import Py.

(** ** [os.path] on a POSIX system *)

Module PosixPath.

Definition sep : ascii := "/"%char.

(** [s.rfind(c)]: the highest index of [c] in [s], or -1. *)
Fixpoint rfind_from (c : ascii) (s : str) (i last : Z) : Z :=
  match s with
  | [] => last
  | x :: s' => rfind_from c s' (i + 1) (if decide (x = c) then i else last)
  end.
Definition rfind (c : ascii) (s : str) : Z := rfind_from c s 0 (-1).

(** [s.rstrip(c)] *)
Fixpoint lstrip (c : ascii) (s : str) : str :=
  match s with
  | [] => []
  | x :: s' => if decide (x = c) then lstrip c s' else s
  end.
Definition rstrip (c : ascii) (s : str) : str := reverse (lstrip c (reverse s)).

(** [os.path.split(p)]: (head, tail), the tail being everything after the
    last slash. *)
Definition split (p : str) : str * str :=
  let i := rfind sep p + 1 in
  let head := slice p None (Some i) in
  let tail := slice p (Some i) None in
  let head :=
    if bool_decide (head ≠ [] ∧ head ≠ replicate (length head) sep)
    then rstrip sep head else head in
  (head, tail).

(** [os.path.basename(p)] *)
Definition basename (p : str) : str :=
  let i := rfind sep p + 1 in
  slice p (Some i) None.

(** [s.startswith(c)], [s.endswith(c)] for a one-character [c]. *)
Definition startswith (s : str) (c : ascii) : bool :=
  match s with
  | x :: _ => bool_decide (x = c)
  | [] => false
  end.
Definition endswith (s : str) (c : ascii) : bool :=
  match last s with
  | Some x => bool_decide (x = c)
  | None => false
  end.

(** [os.path.join(a, b)] *)
Definition join (a b : str) : str :=
  if startswith b sep then b
  else if bool_decide (a = []) || endswith a sep then a ++ b
  else a ++ sep :: b.

End PosixPath.

(** The file system, as far as the program looks at it: [os.path.exists]. *)
Class FileSystem : Type := {
  path_exists : str → bool
}.

(** ** utilities.py: path helpers *)

(** "returns the id of the given mp3 path": [os.path.split(mp3_path)[1][:-4]] *)
Definition id_from_path (mp3_path : str) : str :=
  slice (PosixPath.split mp3_path).2 None (Some (-4)).

(** "Take the mp3 path and find the melspec path.  Returns the melspec
    path." *)
Definition mp3_to_mel_path `{FileSystem} (mp3_path melspec_dir : str) : result str :=
  let melspec_path :=
    PosixPath.join melspec_dir (id_from_path mp3_path ++ lit ".npz") in
  if path_exists melspec_path then Ok melspec_path
  else Raise (FileNotFoundError
                (lit "Did not find a melspectrogram with id " ++ id_from_path mp3_path)).

(** ** numpy arrays *)

Module Np.

(** A 2-D and a 3-D array: the shape, and the entries as nested rows.
    numpy keeps the shape apart from the buffer, so an array with a zero
    dimension still has its other dimensions. *)
Record ndarray2 (V : Type) : Type := {
  shape2 : nat * nat;
  cells2 : list (list V)
}.
Record ndarray3 (V : Type) : Type := {
  shape3 : nat * nat * nat;
  cells3 : list (list (list V))
}.
Global Arguments shape2 {V} _.
Global Arguments cells2 {V} _.
Global Arguments shape3 {V} _.
Global Arguments cells3 {V} _.

Section Arrays.
Context {V : Type}.

(** The entries fill the shape. *)
Definition wf_rows (d1 d2 : nat) (rows : list (list V)) : Prop :=
  length rows = d1 ∧ Forall (λ row, length row = d2) rows.
Definition wf2 (a : ndarray2 V) : Prop :=
  wf_rows (shape2 a).1 (shape2 a).2 (cells2 a).
Definition wf3 (a : ndarray3 V) : Prop :=
  length (cells3 a) = (shape3 a).1.1 ∧
  Forall (wf_rows (shape3 a).1.2 (shape3 a).2) (cells3 a).

(** [np.zeros((d0, d1, d2))] *)
Definition zeros (zero : V) (d0 d1 d2 : nat) : ndarray3 V :=
  {| shape3 := (d0, d1, d2);
     cells3 := replicate d0 (replicate d1 (replicate d2 zero)) |}.

(** [m[j, k]] read with a fallback for an index outside the buffer. *)
Definition get2 (m : ndarray2 V) (j k : nat) (fallback : V) : V :=
  default fallback (cells2 m !! j ≫= (.!! k)).

(** [a[i, :r, :c] = m].  The index [i] must exist ([IndexError]); the
    two slices are clipped to the array, and [m] must have the shape of
    the clipped block or broadcast to it (an axis of length 1 is
    repeated), else [ValueError]. *)
Definition setitem_block (a : ndarray3 V) (i r c : nat) (m : ndarray2 V)
  : result (ndarray3 V) :=
  let '(d0, d1, d2) := shape3 a in
  if decide (d0 ≤ i)%nat then Raise IndexError else
  let r' := Nat.min r d1 in
  let c' := Nat.min c d2 in
  let '(mr, mc) := shape2 m in
  if bool_decide ((mr = r' ∨ mr = 1%nat) ∧ (mc = c' ∨ mc = 1%nat)) then
    let src j k := get2 m (if decide (mr = r') then j else 0%nat)
                          (if decide (mc = c') then k else 0%nat) in
    let write_row j row :=
      if decide (j < r')%nat
      then imap (λ k v, if decide (k < c')%nat then src j k v else v) row
      else row in
    Ok {| shape3 := shape3 a;
          cells3 := alter (imap write_row) i (cells3 a) |}
  else Raise ValueError.

(** [a[start:stop, :]] *)
Definition rows_slice (a : ndarray2 V) (start stop : option Z) : ndarray2 V :=
  let rows := slice (cells2 a) start stop in
  {| shape2 := (length rows, (shape2 a).2); cells2 := rows |}.

End Arrays.

End Np.
Import Np.

(** ** pandas frames *)

Module Pd.

(** A hashable value found in a table: an integer or a string.  A cell is
    such a value or the missing value NaN ([None]). *)
Inductive scalar : Type :=
| SInt (z : Z)
| SStr (s : str).

Global Instance scalar_eq_dec : EqDecision scalar.
Proof. solve_decision. Defined.

Abbreviation cell := (option scalar).

(** The row index: its name, if it has one, and the row labels. *)
Record Index : Type := {
  name : option str;
  row_labels : list cell
}.

(** [pd.RangeIndex(n)] *)
Definition RangeIndex (n : nat) : Index :=
  {| name := None; row_labels := (λ i, Some (SInt (Z.of_nat i))) <$> seq 0 n |}.

(** A frame: the row index and the columns in order, each with its label.
    Labels may repeat. *)
Record DataFrame (L : Type) : Type := {
  index : Index;
  columns : list (L * list cell)
}.
Global Arguments index {L} _.
Global Arguments columns {L} _.

Record Series : Type := {
  s_index : Index;
  s_values : list cell
}.

(** What selecting by one label gives: a series when one column carries
    the label, a frame when several do. *)
Inductive selection (L : Type) : Type :=
| OneColumn (s : Series)
| SeveralColumns (df : DataFrame L).
Global Arguments OneColumn {L} s.
Global Arguments SeveralColumns {L} df.

(** [s.unique()]: the distinct values in order of first appearance. *)
Fixpoint unique {A : Type} `{EqDecision A} (l : list A) : list A :=
  match l with
  | [] => []
  | x :: l' => x :: filter (λ y, y ≠ x) (unique l')
  end.

(** [s == v], [s.isin(vs)], and [mask.sum()] *)
Definition eq_mask (s : Series) (v : cell) : list bool :=
  (λ c, bool_decide (c = v)) <$> s_values s.
Definition isin (s : Series) (vs : list cell) : list bool :=
  (λ c, bool_decide (c ∈ vs)) <$> s_values s.
Definition mask_sum (mask : list bool) : nat :=
  length (filter (λ b, b = true) mask).

(** The rows a boolean mask selects. *)
Definition keep_rows {A : Type} (mask : list bool) (l : list A) : list A :=
  (filter (λ p, p.1 = true) (zip mask l)).*2.

Section Frames.
Context {L : Type} `{EqDecision L}.

(** Every column has an entry for every row. *)
Definition wf (df : DataFrame L) : Prop :=
  Forall (λ c, length c.2 = length (row_labels (index df))) (columns df).

Definition labelled (key : L) (df : DataFrame L) : list (L * list cell) :=
  filter (λ c, c.1 = key) (columns df).

Definition select (missing : exn) (df : DataFrame L) (key : L)
  : result (selection L) :=
  match labelled key df with
  | [] => Raise missing
  | [c] => Ok (OneColumn {| s_index := index df; s_values := c.2 |})
  | cs => Ok (SeveralColumns {| index := index df; columns := cs |})
  end.

(** [df[key]] *)
Definition getitem : DataFrame L → L → result (selection L) :=
  select KeyError.

(** [df.key], for a key that is no attribute of the frame class. *)
Definition getattr : DataFrame L → L → result (selection L) :=
  select AttributeError.

(** [df.loc[:, keys]]: for each key in turn every column that carries
    it; [KeyError] when a key labels no column (NaN never does). *)
Definition loc_columns (df : DataFrame L) (keys : list (option L))
  : result (DataFrame L) :=
  cols ← mapM (λ key,
            match key with
            | None => Raise KeyError
            | Some k =>
                match labelled k df with
                | [] => Raise KeyError
                | cs => Ok cs
                end
            end) keys;
  Ok {| index := index df; columns := concat cols |}.

(** [df.loc[mask, :]] for a boolean mask over the rows. *)
Definition loc_rows (df : DataFrame L) (mask : list bool) : DataFrame L :=
  {| index := {| name := name (index df);
                 row_labels := keep_rows mask (row_labels (index df)) |};
     columns := prod_map id (keep_rows mask) <$> columns df |}.

(** [df.drop(rows)]: the rows whose label is listed go; [KeyError] when a
    listed label is no row label. *)
Definition drop_rows (df : DataFrame L) (rows : list cell)
  : result (DataFrame L) :=
  if decide (rows ⊆ row_labels (index df))
  then Ok (loc_rows df ((λ l, bool_decide (l ∉ rows)) <$> row_labels (index df)))
  else Raise KeyError.

(** [df.columns = new_labels] *)
Definition set_columns {L' : Type} (df : DataFrame L) (new_labels : list L')
  : result (DataFrame L') :=
  if decide (length new_labels = length (columns df))
  then Ok {| index := index df;
             columns := zip new_labels (columns df).*2 |}
  else Raise ValueError.

(** What [df[key] = values] does first ([DataFrame._ensure_valid_index]):
    a frame without rows that is given a non-empty list takes the rows
    of the list, numbered from 0; the index keeps its name and the
    columns there are become NaN throughout. *)
Definition ensure_valid_index (df : DataFrame L) (values : list cell)
  : DataFrame L :=
  if decide (row_labels (index df) = [] ∧ values ≠ []) then
    {| index := {| name := name (index df);
                   row_labels := row_labels (RangeIndex (length values)) |};
       columns := prod_map id (λ _, replicate (length values) None)
                    <$> columns df |}
  else df.

(** [df[key] = values] for a list of values: after [ensure_valid_index],
    one value per row, else [ValueError]; the columns labelled [key] are
    overwritten, and a new column is added on the right when there is
    none. *)
Definition setitem (df : DataFrame L) (key : L) (values : list cell)
  : result (DataFrame L) :=
  let df := ensure_valid_index df values in
  if decide (length values = length (row_labels (index df))) then
    Ok {| index := index df;
          columns :=
            if decide (key ∈ (columns df).*1)
            then (λ c, if decide (c.1 = key) then (key, values) else c)
                   <$> columns df
            else columns df ++ [(key, values)] |}
  else Raise ValueError.

(** [df.to_numpy()] *)
Definition to_numpy (df : DataFrame L) : ndarray2 cell :=
  let n := length (row_labels (index df)) in
  {| shape2 := (n, length (columns df));
     cells2 := (λ r, (λ c, default None (c.2 !! r)) <$> columns df)
                 <$> seq 0 n |}.

(** [pd.concat([a, b], axis=1)] for two frames over the same index, which
    is how the program calls it: the columns of [b] follow those of [a]. *)
Definition concat_axis1 (a b : DataFrame L) : DataFrame L :=
  {| index := index a; columns := columns a ++ columns b |}.

End Frames.

(** [df.reset_index()] on a frame with two-level column labels: the old
    index becomes the first column, labelled by its name (or the default
    name) on the first level and the empty string on the second;
    [ValueError] when that label is taken. *)
Definition reset_index (df : DataFrame (str * str))
  : result (DataFrame (str * str)) :=
  let first_level :=
    match name (index df) with
    | Some n => n
    | None => if decide (lit "index" ∈ (columns df).*1.*1)
              then lit "level_0" else lit "index"
    end in
  let label := (first_level, ([] : str)) in
  if decide (label ∈ (columns df).*1) then Raise ValueError
  else Ok {| index := RangeIndex (length (row_labels (index df)));
             columns := (label, row_labels (index df)) :: columns df |}.

(** The parts of pandas that stay parameters: the CSV reader, called as
    [pd.read_csv(path, header=[0,1], index_col=0)], which yields a
    rectangular frame with pairwise distinct two-level column labels (the
    reader renames repeated ones); the order in which [get_dummies] lists
    the categories (sorted where the values compare, which depends on the
    pandas version for mixed values); and [get_dummies] of a frame. *)
Class Pandas : Type := {
  read_csv : str → result (DataFrame (str * str));
  read_csv_wf : ∀ path df, read_csv path = Ok df → wf df;
  read_csv_labels : ∀ path df, read_csv path = Ok df → NoDup (columns df).*1;
  sort_levels : list scalar → list scalar;
  sort_levels_perm : ∀ l, sort_levels l ≡ₚ l;
  get_dummies_frame : DataFrame scalar → DataFrame scalar
}.

(** [pd.get_dummies(s)] for a series: one indicator column per distinct
    value that is not NaN, labelled by the value; a NaN row is 0 in every
    column. *)
Definition levels `{Pandas} (values : list cell) : list scalar :=
  sort_levels (omap id (unique values)).

Definition indicator (values : list cell) (v : scalar) : list cell :=
  (λ c, Some (SInt (if decide (c = Some v) then 1 else 0))) <$> values.

Definition get_dummies_series `{Pandas} (s : Series) : DataFrame scalar :=
  {| index := s_index s;
     columns := (λ v, (v, indicator (s_values s) v)) <$> levels (s_values s) |}.

Definition get_dummies `{Pandas} (data : selection scalar) : DataFrame scalar :=
  match data with
  | OneColumn s => get_dummies_series s
  | SeveralColumns df => get_dummies_frame df
  end.

End Pd.
Import Pd.

(** ** librosa *)

(** Array entries are floating-point numbers that the program only creates
    as zero and copies. *)
Class Numeric : Type := {
  float : Type;
  zero : float
}.

(** [load(file, sr=sr, duration=d)[0]] decodes a file into samples, and
    [melspectrogram(y, sr=sr)] turns samples into a 2-D array (mel bands by
    frames).  Either may raise. *)
Class Librosa `{Numeric} : Type := {
  audio : Type;
  load : cell → Z → Z → result audio;
  melspectrogram : audio → Z → result (ndarray2 float);
  melspectrogram_wf : ∀ y sr m, melspectrogram y sr = Ok m → wf2 m
}.

(** ** utilities.py: the metadata table *)

(** "Append the onehot representation of `column` onto the right end of the
    array df": [pd.concat([df, pd.get_dummies(df.genre)], axis=1)] *)
Definition attach_onehot_encoding `{Pandas} (df : DataFrame scalar) (column_name : cell)
  : result (DataFrame scalar) :=
  genre ← getattr df (SStr (lit "genre"));
  Ok (concat_axis1 df (get_dummies genre)).

(** The frame of the small subset with its track ids, genres and paths; the
    second component of the result is what the call printed. *)
Definition read_metadata_file `{Pandas} (path : str) (all_filepaths bad_filepaths : list str)
  : result (DataFrame scalar * list str) :=
  all_metadata ← read_csv path;
  let cols_to_keep := [Some (lit "track", lit "genre_top")] in
  subset ← getitem all_metadata (lit "set", lit "subset");
  mask ← match subset with
         | OneColumn s => Ok (eq_mask s (Some (SStr (lit "small"))))
         | SeveralColumns _ => Raise ValueError
         end;
  df ← loc_columns (loc_rows all_metadata mask) cols_to_keep;
  df ← reset_index df;
  df ← set_columns df [SStr (lit "track_id"); SStr (lit "genre")];
  df ← setitem df (SStr (lit "mp3_path")) (Some ∘ SStr <$> all_filepaths);
  mp3_path ← getattr df (SStr (lit "mp3_path"));
  match mp3_path with
  | OneColumn s =>
      let bad := isin s (Some ∘ SStr <$> bad_filepaths) in
      if decide (mask_sum bad ≠ 0%nat) then
        df ← drop_rows df (row_labels (index (loc_rows df bad)));
        Ok (df, [lit "Dropped "
                   ++ lit (NilZero.string_of_uint (Nat.to_uint (length bad_filepaths)))
                   ++ lit " rows from the dataframe."])
      else Ok (df, [])
  | SeveralColumns _ => Raise ValueError
  end.

(** ** utilities.py: the batch generator *)

Record Batch_generator : Type := {
  mp3_paths : list cell;
  labels : ndarray2 cell;
  batch_size : Z;
  sr : Z;
  duration : Z
}.

Module Batch_generator.

(** "Takes in the meta dataframe (or a train/test/split) and peels off the
    paths and the encoded genres." *)
Definition __init__ (meta_df : DataFrame scalar) (batch_size sr duration : Z)
  : result Batch_generator :=
  paths ← getitem meta_df (SStr (lit "mp3_path"));
  mp3_paths ← match paths with
              | OneColumn s => Ok (s_values s)
              | SeveralColumns _ => Raise AttributeError
              end;
  genre ← getattr meta_df (SStr (lit "genre"));
  genres ← match genre with
            | OneColumn s => Ok (unique (s_values s))
            | SeveralColumns _ => Raise AttributeError
            end;
  encoded ← loc_columns meta_df genres;
  Ok {| mp3_paths := mp3_paths; labels := to_numpy encoded;
        batch_size := batch_size; sr := sr; duration := duration |}.

(** [float(n)] for a Python integer: the nearest double, ties to even;
    [OverflowError] when that is no finite double, which is from
    2^1024 - 2^970 on in absolute value (half a unit in the last place
    above the largest double, 2^1024 - 2^971). *)
Definition float_overflows (n : Z) : Prop := 2 ^ 1024 - 2 ^ 970 ≤ Z.abs n.

Global Instance float_overflows_dec (n : Z) : Decision (float_overflows n).
Proof. unfold float_overflows. apply _. Defined.

(** "Return number of batches":
    [np.ceil(len(self.mp3_paths) / float(self.batch_size)).astype(np.int)],
    with [np.int] the alias of Python's [int] that numpy had when the module
    was written.  [float(self.batch_size)] raises [OverflowError] on a batch
    size no double holds, and dividing by [0.0] raises
    [ZeroDivisionError].  Otherwise the quotient is taken exactly: for a
    list length below 2^53 the ceiling of the double quotient is the
    ceiling of the exact one, also where the batch size itself was rounded
    (it is then above 2^53 in absolute value, as is its double, and the
    quotient stays strictly between -1 and 1). *)
Definition __len__ (self : Batch_generator) : result Z :=
  if decide (float_overflows (batch_size self)) then Raise OverflowError
  else if decide (batch_size self = 0) then Raise ZeroDivisionError
  else Ok (Qceiling (inject_Z (Z.of_nat (length (mp3_paths self)))
                     / inject_Z (batch_size self))).

(** The two locals of [__getitem__]: the paths and the label rows of
    batch [idx]. *)
Definition batch_x (self : Batch_generator) (idx : Z) : list cell :=
  slice (mp3_paths self)
    (Some (idx * batch_size self)) (Some ((idx + 1) * batch_size self)).

Definition batch_y (self : Batch_generator) (idx : Z) : ndarray2 cell :=
  rows_slice (labels self)
    (Some (idx * batch_size self)) (Some ((idx + 1) * batch_size self)).

Section Stack.
Context `{Librosa}.

(** "Stack the melspectrograms of the files in the list.  Extends by zeros
    if needed." *)
Definition _stack_melspecs (self : Batch_generator) (filepath_list : list cell)
  : result (ndarray3 float) :=
  sources ← mapM (λ file, load file (sr self) (sr self)) filepath_list;
  melspecs ← mapM (λ src, melspectrogram src (sr self)) sources;
  d1 ← Py.max ((λ melspec, (shape2 melspec).1) <$> melspecs);
  d2 ← Py.max ((λ melspec, (shape2 melspec).2) <$> melspecs);
  let stacked_arr := zeros zero (length filepath_list) d1 d2 in
  foldM (λ stacked_arr i,
           melspec ← Py.index melspecs i;
           setitem_block stacked_arr i
             (shape2 melspec).1 (shape2 melspec).2 melspec)
        (range (length filepath_list)) stacked_arr.

Definition __getitem__ (self : Batch_generator) (idx : Z)
  : result (ndarray3 float * ndarray2 cell) :=
  stacked ← _stack_melspecs self (batch_x self idx);
  Ok (stacked, batch_y self idx).

End Stack.

End Batch_generator.

(** ** Reference definitions and sample environments *)

(** A string with its last [n] characters removed. *)
Definition without_last (n : nat) (s : str) : str :=
  reverse (drop n (reverse s)).

(** Rows padded with zeros on the right to [d2] columns and below to [d1]
    rows. *)
Definition pad_rows {V : Type} (zero : V) (d1 d2 : nat) (rows : list (list V))
  : list (list V) :=
  ((λ row, row ++ replicate (d2 - length row) zero) <$> rows)
    ++ replicate (d1 - length rows) (replicate d2 zero).

(** A file system holding exactly the listed files. *)
Definition disk (files : list str) : FileSystem :=
  {| path_exists p := bool_decide (p ∈ files) |}.

(** A row of labels with exactly one entry equal to 1 and every other
    entry equal to 0. *)
Definition one_hot (row : list cell) : Prop :=
  length (filter (λ c, c = Some (SInt 1)) row) = 1%nat ∧
  Forall (λ c, c = Some (SInt 1) ∨ c = Some (SInt 0)) row.

Global Instance one_hot_dec (row : list cell) : Decision (one_hot row).
Proof. unfold one_hot. apply _. Defined.

(** An order on table values for the sample reader: integers first, then
    strings by character code. *)
Fixpoint str_le (s t : str) : bool :=
  match s, t with
  | [], _ => true
  | _ :: _, [] => false
  | a :: s', b :: t' =>
      if (N_of_ascii a <? N_of_ascii b)%N then true
      else if (N_of_ascii a =? N_of_ascii b)%N then str_le s' t'
      else false
  end.

Definition scalar_le (x y : scalar) : Prop :=
  match x, y with
  | SInt a, SInt b => a ≤ b
  | SInt _, SStr _ => True
  | SStr _, SInt _ => False
  | SStr s, SStr t => str_le s t = true
  end.

Global Instance scalar_le_dec (x y : scalar) : Decision (scalar_le x y).
Proof. destruct x, y; simpl; apply _. Defined.

(** A pandas whose CSV reader knows the listed tables (and refuses one that
    is not rectangular or repeats a column label), which lists categories in
    sorted order, and whose [get_dummies] leaves a frame as it is. *)
Definition sample_pandas (tables : list (str * DataFrame (str * str))) : Pandas.
Proof.
  refine {|
    read_csv path :=
      match list_find (λ t, t.1 = path) tables with
      | Some (_, (_, df)) =>
          if decide (wf df ∧ NoDup (columns df).*1) then Ok df
          else Raise LibraryError
      | None => Raise (FileNotFoundError path)
      end;
    sort_levels := merge_sort scalar_le;
    get_dummies_frame df := df
  |}.
  - intros path df.
    destruct (list_find _ tables) as [[? [? df']]|]; [|discriminate].
    destruct (decide _) as [[Hwf _]|]; [|discriminate]. by intros [= <-].
  - intros path df.
    destruct (list_find _ tables) as [[? [? df']]|]; [|discriminate].
    destruct (decide _) as [[_ Hnd]|]; [|discriminate]. by intros [= <-].
  - intros l. apply merge_sort_Permutation.
Defined.

(** Array entries for the samples: integers. *)
Definition sample_numeric : Numeric := {| float := Z; zero := 0 |}.

(** A librosa for the samples: a file named by a string of [n] characters
    decodes to [n] samples, numbers and NaN are no file names, and the
    spectrogram of [n] samples has 2 bands and [n] frames, all entries 1. *)
Definition sample_librosa : @Librosa sample_numeric.
Proof.
  refine (@Build_Librosa sample_numeric nat
            (λ file sr duration,
               match file with
               | Some (SStr s) => Ok (length s)
               | _ => Raise LibraryError
               end)
            (λ y sr,
               Ok {| shape2 := (2%nat, y);
                     cells2 := replicate 2 (replicate y (1 : @float sample_numeric)) |})
            _).
  intros y sr m [= <-]. split; simpl; [done|].
  repeat constructor; apply length_replicate.
Defined.

(** Three tracks in batches of two, with their label rows. *)
Definition sample_generator (duration : Z) : Batch_generator :=
  {| mp3_paths := [Some (SStr (lit "a.mp3")); Some (SStr (lit "bb.mp3"));
                   Some (SStr (lit "c.mp3"))];
     labels := {| shape2 := (3%nat, 2%nat);
                  cells2 := [[Some (SInt 1); Some (SInt 0)];
                             [Some (SInt 0); Some (SInt 1)];
                             [Some (SInt 1); Some (SInt 0)]] |};
     batch_size := 2; sr := 22050; duration := duration |}.

(** The same tracks with a batch size of 2^1024, which is a Python
    integer but no double. *)
Definition oversized_generator : Batch_generator :=
  {| mp3_paths := mp3_paths (sample_generator 30);
     labels := labels (sample_generator 30);
     batch_size := 2 ^ 1024; sr := 22050; duration := 30 |}.

(** A frame followed by one indicator column per genre. *)
Definition with_dummies `{Pandas} (df : DataFrame scalar) (genres : list cell)
  : DataFrame scalar :=
  {| index := index df;
     columns := columns df ++ ((λ v, (v, indicator genres v)) <$> levels genres) |}.

(** A metadata frame of two tracks, and one whose only genre is spelled
    like the label of the first column. *)
Definition sample_metadata : DataFrame scalar :=
  {| index := RangeIndex 2;
     columns := [(SStr (lit "track_id"), [Some (SInt 2); Some (SInt 5)]);
                 (SStr (lit "genre"), [Some (SStr (lit "Rock")); Some (SStr (lit "Folk"))]);
                 (SStr (lit "mp3_path"), [Some (SStr (lit "a.mp3")); Some (SStr (lit "bb.mp3"))])] |}.

Definition colliding_metadata : DataFrame scalar :=
  {| index := RangeIndex 1;
     columns := [(SStr (lit "track_id"), [Some (SInt 2)]);
                 (SStr (lit "genre"), [Some (SStr (lit "track_id"))]);
                 (SStr (lit "mp3_path"), [Some (SStr (lit "a.mp3"))])] |}.

(** A parsed tracks table with three tracks, two of them in the small
    subset. *)
Definition sample_tracks : DataFrame (str * str) :=
  {| index := {| name := Some (lit "track_id");
                 row_labels := [Some (SInt 2); Some (SInt 3); Some (SInt 5)] |};
     columns :=
       [((lit "set", lit "subset"),
         [Some (SStr (lit "small")); Some (SStr (lit "medium"));
          Some (SStr (lit "small"))]);
        ((lit "track", lit "genre_top"),
         [Some (SStr (lit "Rock")); Some (SStr (lit "Pop"));
          Some (SStr (lit "Folk"))]);
        ((lit "track", lit "title"),
         [Some (SStr (lit "One")); None; Some (SStr (lit "Three"))])] |}.

(** ** evaluation_utilities.py: the classes of one-hot labels *)

(** [np.argmax(row)] on integers: the first index that holds the maximum;
    [ValueError] on an empty row. *)
Fixpoint argmax_from (best : Z) (best_i i : nat) (row : list Z) : nat :=
  match row with
  | [] => best_i
  | x :: row' =>
      if best <? x then argmax_from x i (S i) row'
      else argmax_from best best_i (S i) row'
  end.

Definition argmax (row : list Z) : result nat :=
  match row with
  | [] => Raise ValueError
  | x :: row' => Ok (argmax_from x 0 1 row')
  end.

(** [classes = np.argmax(y_test, axis=1)], the line [get_confusion_matrix]
    and [get_classification_report] share, for an integer label array: one
    class per row, and [ValueError] when the array has no columns. *)
Definition classes (y_test : ndarray2 Z) : result (list nat) :=
  if decide ((shape2 y_test).2 = 0%nat) then Raise ValueError
  else mapM argmax (cells2 y_test).

(** The integer entries of a label row, where all its entries are
    integers. *)
Definition int_row (row : list cell) : option (list Z) :=
  mapM (λ c, match c with Some (SInt z) => Some z | _ => None end) row.

(** A parsed table that has no genre column. *)
Definition sample_tracks_without_genre : DataFrame (str * str) :=
  {| index := {| name := Some (lit "track_id");
                 row_labels := [Some (SInt 2); Some (SInt 3)] |};
     columns :=
       [((lit "set", lit "subset"),
         [Some (SStr (lit "small")); Some (SStr (lit "medium"))]);
        ((lit "track", lit "title"),
         [Some (SStr (lit "One")); Some (SStr (lit "Two"))])] |}.

(** A parsed table none of whose tracks is in the small subset. *)
Definition sample_tracks_without_small : DataFrame (str * str) :=
  {| index := {| name := Some (lit "track_id");
                 row_labels := [Some (SInt 2); Some (SInt 3)] |};
     columns :=
       [((lit "set", lit "subset"),
         [Some (SStr (lit "medium")); Some (SStr (lit "large"))]);
        ((lit "track", lit "genre_top"),
         [Some (SStr (lit "Rock")); Some (SStr (lit "Pop"))])] |}.

(* ===================================================================== *)
(** * Part II: properties                                                 *)
(* ===================================================================== *)

(** ** Slices *)

Section SliceFacts.
Context {A : Type}.
Implicit Types l : list A.

Lemma slice_nonneg l (a b : Z) :
  0 ≤ a → 0 ≤ b →
  slice l (Some a) (Some b)
  = take (Z.to_nat b - Z.to_nat a) (drop (Z.to_nat a) l).
Proof.
  intros Ha Hb. unfold slice, adjust_index; simpl.
  destruct (Z.ltb_spec a 0), (Z.ltb_spec b 0); try lia.
  set (len := Z.of_nat (length l)).
  destruct (decide (len ≤ a)) as [Hge|Hlt].
  - rewrite !drop_ge by lia. by rewrite !take_nil.
  - replace (Z.to_nat (Z.min a len)) with (Z.to_nat a) by lia.
    destruct (decide (b ≤ len)).
    + f_equal. lia.
    + rewrite !take_ge; [done | |]; rewrite length_drop; lia.
Qed.

Lemma slice_from l (a : Z) :
  0 ≤ a → slice l (Some a) None = drop (Z.to_nat a) l.
Proof.
  intros Ha. unfold slice, adjust_index; simpl.
  destruct (Z.ltb_spec a 0); try lia.
  destruct (decide (Z.of_nat (length l) ≤ a)).
  - rewrite !drop_ge by lia. by rewrite take_nil.
  - replace (Z.to_nat (Z.min a (Z.of_nat (length l)))) with (Z.to_nat a) by lia.
    apply take_ge. rewrite length_drop. lia.
Qed.

Lemma slice_to_end_minus l (k : nat) :
  (0 < k)%nat → slice l None (Some (- Z.of_nat k)) = take (length l - k) l.
Proof.
  intros Hk. unfold slice, adjust_index; simpl.
  destruct (Z.ltb_spec (- Z.of_nat k) 0); try lia.
  rewrite drop_0. f_equal. lia.
Qed.

End SliceFacts.

(** ** Paths *)

Section PathFacts.
Import PosixPath.

(** Where [rfind] lands: on an occurrence with none after it, or on [last]
    when there is no occurrence. *)
Lemma rfind_from_spec c (s : str) (i last : Z) :
  let r := rfind_from c s i last in
  (r = last ∧ c ∉ s) ∨
  (i ≤ r < i + Z.of_nat (length s) ∧
   s !! Z.to_nat (r - i) = Some c ∧ c ∉ drop (S (Z.to_nat (r - i))) s).
Proof.
  revert i last. induction s as [|x s IH]; intros i last; simpl.
  - left. split; [done | apply not_elem_of_nil].
  - destruct (IH (i + 1) (if decide (x = c) then i else last))
      as [[Hr Hnot]|(Hrange & Hat & Hafter)].
    + rewrite Hr. destruct (decide (x = c)) as [->|Hne].
      * right. replace (i - i) with 0 by lia. simpl.
        split_and!; [lia | lia | done | by rewrite drop_0].
      * left. split; [done|]. rewrite not_elem_of_cons. done.
    + right.
      set (r := rfind_from c s (i + 1) _) in *.
      replace (Z.to_nat (r - i)) with (S (Z.to_nat (r - (i + 1)))) by lia.
      simpl. split_and!; [lia | lia | done | done].
Qed.

(** The basename starts right after the last separator: it has no
    separator, and what precedes it is empty or ends in one. *)
Lemma basename_spec (p : str) :
  ∃ dir, p = dir ++ basename p ∧ (sep ∉ basename p) ∧
         (dir = [] ∨ last dir = Some sep).
Proof.
  unfold basename, rfind.
  destruct (rfind_from_spec sep p 0 (-1)) as [[Hr Hnot]|(Hrange & Hat & Hafter)].
  - rewrite Hr. simpl. rewrite slice_from by lia. simpl.
    exists []. rewrite drop_0. auto.
  - set (r := rfind_from sep p 0 (-1)) in *.
    rewrite slice_from by lia.
    replace (Z.to_nat (r + 1)) with (S (Z.to_nat (r - 0))) by lia.
    exists (take (S (Z.to_nat (r - 0))) p). split_and!.
    + by rewrite take_drop.
    + done.
    + right. rewrite last_lookup, length_take.
      rewrite Nat.min_l by lia. simpl.
      rewrite lookup_take_lt by lia. done.
Qed.

Lemma split_tail (p : str) : (split p).2 = basename p.
Proof. reflexivity. Qed.

End PathFacts.

(** ** The track id and the spectrogram path *)

Section MelPath.
Context `{FileSystem}.
Import PosixPath.

Lemma id_from_path_take (p : str) :
  id_from_path p = take (length (basename p) - 4) (basename p).
Proof.
  unfold id_from_path. rewrite split_tail.
  apply (slice_to_end_minus _ 4). lia.
Qed.

Lemma id_from_path_no_sep (p : str) : sep ∉ id_from_path p.
Proof.
  rewrite id_from_path_take.
  destruct (basename_spec p) as (dir & _ & Hnot & _).
  intros (i & Hi & _)%elem_of_take. apply Hnot.
  by eapply list_elem_of_lookup_2.
Qed.

Lemma join_relative (a b : str) :
  startswith b sep = false →
  join a b = if bool_decide (a = []) || endswith a sep then a ++ b
             else a ++ sep :: b.
Proof. intros Hb. unfold join. by rewrite Hb. Qed.

Lemma npz_name_relative (p : str) :
  startswith (id_from_path p ++ lit ".npz") sep = false.
Proof.
  pose proof (id_from_path_no_sep p) as Hnot.
  destruct (id_from_path p) as [|x s]; [done|]. simpl.
  apply bool_decide_eq_false. intros ->. apply Hnot. left.
Qed.

(** C4: [mp3_to_mel_path] raises [FileNotFoundError] exactly when the
    spectrogram file it constructs, [melspec_dir] joined with the track id
    and ".npz", does not exist; when the file exists the call returns its
    path; and no other exception is raised. *)
Theorem mp3_to_mel_path_raises_iff_missing (mp3_path melspec_dir : str) :
  let melspec_path := join melspec_dir (id_from_path mp3_path ++ lit ".npz") in
  ((∃ msg, mp3_to_mel_path mp3_path melspec_dir = Raise (FileNotFoundError msg))
     ↔ path_exists melspec_path = false) ∧
  (mp3_to_mel_path mp3_path melspec_dir = Ok melspec_path
     ↔ path_exists melspec_path = true) ∧
  (∀ e, mp3_to_mel_path mp3_path melspec_dir = Raise e →
        ∃ msg, e = FileNotFoundError msg).
Proof.
  intros melspec_path. unfold mp3_to_mel_path. fold melspec_path.
  destruct (path_exists melspec_path); split_and!.
  - split; [intros [msg Hmsg]; discriminate | discriminate].
  - done.
  - discriminate.
  - split; [done | eauto].
  - split; discriminate.
  - intros e [= <-]. eauto.
Qed.

(** C5: the track id is the basename of the path without its last four
    characters (for a name ending in a four-character extension such as
    ".mp3", the name without the extension), and [mp3_to_mel_path] maps
    the path to [melspec_dir] joined with the track id followed by ".npz":
    that is the only path it returns, it returns it whenever the file
    exists, and the join puts one slash between a directory that does not
    end in one and the file name. *)
Theorem id_from_path_and_mel_path (mp3_path melspec_dir : str) :
  id_from_path mp3_path = without_last 4 (basename mp3_path) ∧
  (∀ stem ext, basename mp3_path = stem ++ ext → length ext = 4%nat →
               id_from_path mp3_path = stem) ∧
  let melspec_path := join melspec_dir (id_from_path mp3_path ++ lit ".npz") in
  (∀ q, mp3_to_mel_path mp3_path melspec_dir = Ok q → q = melspec_path) ∧
  (path_exists melspec_path = true →
   mp3_to_mel_path mp3_path melspec_dir = Ok melspec_path) ∧
  melspec_path =
    (if bool_decide (melspec_dir = []) || endswith melspec_dir sep
     then melspec_dir ++ id_from_path mp3_path ++ lit ".npz"
     else melspec_dir ++ lit "/" ++ id_from_path mp3_path ++ lit ".npz").
Proof.
  split; [|split; [|intros melspec_path; split_and!]].
  - rewrite id_from_path_take. unfold without_last.
    by rewrite drop_reverse, reverse_involutive.
  - intros stem ext Hbase Hext. rewrite id_from_path_take, Hbase.
    rewrite length_app, Hext.
    replace (length stem + 4 - 4)%nat with (length stem) by lia.
    by rewrite take_app_length.
  - unfold mp3_to_mel_path. fold melspec_path. intros q.
    destruct (path_exists _); [by intros [= <-] | discriminate].
  - unfold mp3_to_mel_path. fold melspec_path. by intros ->.
  - apply join_relative, npz_name_relative.
Qed.

End MelPath.

Lemma mp3_to_mel_path_raises_iff_missing_witness :
  @mp3_to_mel_path (disk [lit "mel/000002.npz"])
    (lit "fma_small/000/000002.mp3") (lit "mel") = Ok (lit "mel/000002.npz") ∧
  ∃ msg, @mp3_to_mel_path (disk []) (lit "fma_small/000/000002.mp3") (lit "mel")
         = Raise (FileNotFoundError msg).
Proof.
  split.
  - apply (@mp3_to_mel_path_raises_iff_missing (disk [lit "mel/000002.npz"])
             (lit "fma_small/000/000002.mp3") (lit "mel")).
    vm_compute. reflexivity.
  - apply (@mp3_to_mel_path_raises_iff_missing (disk [])
             (lit "fma_small/000/000002.mp3") (lit "mel")).
    vm_compute. reflexivity.
Defined.

Lemma id_from_path_and_mel_path_witness :
  id_from_path (lit "fma_small/000/000002.mp3") = lit "000002" ∧
  @mp3_to_mel_path (disk [lit "mel/000002.npz"])
    (lit "fma_small/000/000002.mp3") (lit "mel") = Ok (lit "mel/000002.npz").
Proof.
  pose proof (@id_from_path_and_mel_path (disk [lit "mel/000002.npz"])
                (lit "fma_small/000/000002.mp3") (lit "mel"))
    as (_ & Hstem & _ & Hok & _).
  split.
  - apply (Hstem (lit "000002") (lit ".mp3")); reflexivity.
  - apply Hok. vm_compute. reflexivity.
Defined.

(** ** Batches: how many, and which tracks *)

Section Batches.
Import Batch_generator.

Lemma Qceiling_quotient (n b : Z) :
  0 < b → Qceiling (inject_Z n / inject_Z b) = (n + b - 1) / b.
Proof.
  intros Hb.
  assert (Heq : Qeq (inject_Z n / inject_Z b) (n # Z.to_pos b)).
  { unfold Qeq, Qdiv, Qmult, Qinv, inject_Z; simpl.
    destruct b as [|pb|pb]; try lia. simpl. lia. }
  rewrite Heq. unfold Qceiling, Qfloor, Qopp; simpl.
  rewrite Z2Pos.id by lia.
  apply Z.div_unique with (r := (n + b - 1) - b * - (- n / b)).
  - left. pose proof (Z.mod_pos_bound (- n) b Hb).
    pose proof (Z.div_mod (- n) b ltac:(lia)). lia.
  - lia.
Qed.

Lemma len_no_overflow (self : Batch_generator) (n_batches : Z) :
  __len__ self = Ok n_batches → ¬ float_overflows (batch_size self).
Proof.
  unfold __len__. by destruct (decide (float_overflows (batch_size self))).
Qed.

Lemma len_ceiling (self : Batch_generator) :
  1 ≤ batch_size self → ¬ float_overflows (batch_size self) →
  let n := Z.of_nat (length (mp3_paths self)) in
  let b := batch_size self in
  __len__ self = Ok ((n + b - 1) / b) ∧
  b * ((n + b - 1) / b - 1) < n ≤ b * ((n + b - 1) / b).
Proof.
  intros Hb Hfl n b. unfold __len__.
  destruct (decide (float_overflows (batch_size self))); [done|].
  destruct (decide (batch_size self = 0)); [lia|].
  rewrite Qceiling_quotient by lia. split; [done|].
  fold n b.
  pose proof (Z.mod_pos_bound (n + b - 1) b ltac:(lia)).
  pose proof (Z.div_mod (n + b - 1) b ltac:(lia)). lia.
Qed.

(** A slice with bounds [i*b] and [(i+1)*b], both non-negative: the [b]
    elements from position [i*b] on, as far as the list goes. *)
Lemma slice_batch {A : Type} (l : list A) (i b : Z) :
  0 ≤ i → 0 ≤ b →
  slice l (Some (i * b)) (Some ((i + 1) * b))
  = take (Z.to_nat b) (drop (Z.to_nat i * Z.to_nat b) l).
Proof.
  intros Hi Hb. rewrite slice_nonneg by nia.
  f_equal; [nia | f_equal; nia].
Qed.

Lemma concat_chunks {A : Type} (l : list A) (b k : nat) :
  concat ((λ i, take b (drop (i * b) l)) <$> seq 0 k) = take (k * b) l.
Proof.
  induction k as [|k IH]; [done|].
  rewrite seq_S, fmap_app, concat_app, IH. simpl.
  rewrite app_nil_r, take_take_drop. f_equal. lia.
Qed.

End Batches.

(** ** Zero padding *)

Section Padding.
Context {V : Type} (zero : V).
Local Open Scope nat_scope.
Implicit Types rows : list (list V).

Lemma pad_rows_lookup rows d1 d2 r c j :
  wf_rows r c rows → r ≤ d1 → c ≤ d2 →
  pad_rows zero d1 d2 rows !! j =
    if decide (j < r) then (λ row, row ++ replicate (d2 - c) zero) <$> rows !! j
    else if decide (j < d1) then Some (replicate d2 zero)
    else None.
Proof.
  intros [Hlen Hrows] Hr Hc. unfold pad_rows. rewrite Hlen.
  destruct (decide (j < r)) as [Hj|Hj].
  - rewrite lookup_app_l by (rewrite length_fmap; lia).
    rewrite list_lookup_fmap.
    destruct (rows !! j) as [row|] eqn:Hrow; [|done]. simpl.
    by rewrite (Forall_lookup_1 _ _ _ _ Hrows Hrow).
  - rewrite lookup_app_r by (rewrite length_fmap; lia).
    rewrite length_fmap, Hlen.
    destruct (decide (j < d1)).
    + apply lookup_replicate_2. lia.
    + apply lookup_replicate_None. lia.
Qed.

Lemma pad_rows_wf rows d1 d2 r c :
  wf_rows r c rows → r ≤ d1 → c ≤ d2 →
  wf_rows d1 d2 (pad_rows zero d1 d2 rows).
Proof.
  intros [Hlen Hrows] Hr Hc. unfold pad_rows. split.
  - rewrite length_app, length_fmap, length_replicate. lia.
  - apply Forall_app. split.
    + apply Forall_fmap. eapply Forall_impl; [exact Hrows|].
      intros row Hrow. simpl in *. rewrite length_app, length_replicate. lia.
    + apply Forall_replicate. by rewrite length_replicate.
Qed.

(** Cutting the padded block back to [r] rows and [c] columns gives the
    block. *)
Lemma pad_rows_restrict rows d1 d2 r c :
  wf_rows r c rows → r ≤ d1 → c ≤ d2 →
  take c <$> take r (pad_rows zero d1 d2 rows) = rows.
Proof.
  intros [Hlen Hrows] Hr Hc. unfold pad_rows.
  rewrite take_app_length' by (by rewrite length_fmap).
  rewrite <- list_fmap_compose.
  rewrite <- (list_fmap_id rows) at 2.
  apply Forall_fmap_ext. eapply Forall_impl; [exact Hrows|].
  intros row Hrow. simpl in *. by rewrite take_app_length'.
Qed.

(** Outside the block every entry is zero. *)
Lemma pad_rows_outside rows d1 d2 r c j k row v :
  wf_rows r c rows → r ≤ d1 → c ≤ d2 →
  pad_rows zero d1 d2 rows !! j = Some row → row !! k = Some v →
  ¬ (j < r ∧ k < c) → v = zero.
Proof.
  intros Hwf Hr Hc Hj Hk Hout.
  rewrite (pad_rows_lookup _ _ _ _ _ _ Hwf Hr Hc) in Hj.
  destruct Hwf as [Hlen Hrows].
  destruct (decide (j < r)) as [Hjr|Hjr].
  - destruct (rows !! j) as [row'|] eqn:Hrow'; [|done].
    injection Hj as <-.
    pose proof (Forall_lookup_1 _ _ _ _ Hrows Hrow') as Hlen'. simpl in Hlen'.
    rewrite lookup_app_r in Hk by lia.
    by apply lookup_replicate_1 in Hk as [-> _].
  - destruct (decide (j < d1)); [|done]. injection Hj as <-.
    by apply lookup_replicate_1 in Hk as [-> _].
Qed.

(** Writing a block into a plane of zeros, as [setitem_block] does row by
    row, is padding the block. *)
Lemma write_into_zeros (m : ndarray2 V) d1 d2 :
  wf2 m → (shape2 m).1 ≤ d1 → (shape2 m).2 ≤ d2 →
  imap (λ j row,
          if decide (j < (shape2 m).1)
          then imap (λ k v, if decide (k < (shape2 m).2)
                            then get2 m j k v else v) row
          else row)
       (replicate d1 (replicate d2 zero))
  = pad_rows zero d1 d2 (cells2 m).
Proof.
  intros Hwf Hr Hc. apply list_eq. intros j.
  rewrite list_lookup_imap, (pad_rows_lookup _ _ _ _ _ _ Hwf Hr Hc).
  destruct Hwf as [Hlen Hrows].
  destruct (decide (j < (shape2 m).1)) as [Hj|Hj].
  - rewrite lookup_replicate_2 by lia. simpl.
    destruct (lookup_lt_is_Some_2 (cells2 m) j ltac:(lia)) as [row Hrow].
    rewrite Hrow. simpl. f_equal.
    pose proof (Forall_lookup_1 _ _ _ _ Hrows Hrow) as Hlen'. simpl in Hlen'.
    apply list_eq. intros k. rewrite list_lookup_imap.
    destruct (decide (k < (shape2 m).2)) as [Hk|Hk].
    + rewrite lookup_replicate_2 by lia. simpl.
      rewrite lookup_app_l by lia.
      destruct (lookup_lt_is_Some_2 row k ltac:(lia)) as [v Hv].
      unfold get2. rewrite Hrow. simpl. by rewrite Hv.
    + rewrite lookup_app_r by lia.
      destruct (decide (k < d2)).
      * rewrite !lookup_replicate_2 by lia. done.
      * rewrite (proj1 (lookup_replicate_None _ _ _)) by lia.
        rewrite (proj1 (lookup_replicate_None _ _ _)) by lia. done.
  - destruct (decide (j < d1)).
    + by rewrite lookup_replicate_2 by lia.
    + by rewrite (proj1 (lookup_replicate_None _ _ _)) by lia.
Qed.

End Padding.

(** ** The error monad on lists *)

Section ResultFacts.
Context {A B : Type}.

Lemma mapM_Ok_Forall2 (f : A → result B) (l : list A) (k : list B) :
  mapM f l = Ok k ↔ Forall2 (λ x y, f x = Ok y) l k.
Proof.
  revert k. induction l as [|x l IH]; intros k; simpl.
  - split.
    + intros [= <-]. constructor.
    + by intros ->%Forall2_nil_inv_l.
  - split.
    + destruct (f x) as [y|] eqn:Hfx; [|discriminate]. simpl.
      destruct (mapM f l) as [k'|] eqn:Hl; [|discriminate]. simpl.
      intros [= <-]. constructor; [done|]. by apply IH.
    + intros (y & k' & Hy & Hk' & ->)%Forall2_cons_inv_l.
      rewrite Hy. simpl. apply IH in Hk'. by rewrite Hk'.
Qed.

Lemma mapM_Ok_length (f : A → result B) (l : list A) (k : list B) :
  mapM f l = Ok k → length k = length l.
Proof. intros Hk%mapM_Ok_Forall2. symmetry. by eapply Forall2_length. Qed.

Lemma mapM_Ok_lookup (f : A → result B) (l : list A) (k : list B) i y :
  mapM f l = Ok k → k !! i = Some y → ∃ x, l !! i = Some x ∧ f x = Ok y.
Proof.
  intros Hk%mapM_Ok_Forall2 Hy.
  destruct (Forall2_lookup_r _ _ _ _ _ Hk Hy) as (x & Hx & Hfx). eauto.
Qed.

End ResultFacts.

Lemma max_foldl (x : nat) (l : list nat) : foldl Nat.max x l = max_list (x :: l).
Proof.
  revert x. induction l as [|y l IH]; intros x; simpl.
  - lia.
  - rewrite IH. simpl. lia.
Qed.

Lemma py_max_nonempty (l : list nat) : l ≠ [] → Py.max l = Ok (max_list l).
Proof. destruct l as [|x l]; [done|]. intros _. simpl. by rewrite max_foldl. Qed.

(** ** Stacking spectrograms *)

Section Stacking.
Context `{Librosa}.
Import Batch_generator.
Local Open Scope nat_scope.

(** One pass of the loop body on a plane that is still zero. *)
Lemma setitem_block_zeros (m : ndarray2 float) (n d1 d2 : nat)
      (done_ rest : list (list (list float))) :
  wf2 m → (shape2 m).1 ≤ d1 → (shape2 m).2 ≤ d2 →
  length done_ + S (length rest) = n →
  setitem_block
    {| shape3 := (n, d1, d2);
       cells3 := done_ ++ replicate d1 (replicate d2 zero) :: rest |}
    (length done_) (shape2 m).1 (shape2 m).2 m
  = Ok {| shape3 := (n, d1, d2);
          cells3 := done_ ++ pad_rows zero d1 d2 (cells2 m) :: rest |}.
Proof.
  intros Hwf Hr Hc Hn. unfold setitem_block. simpl.
  destruct (decide (n ≤ length done_)); [lia|].
  destruct (shape2 m) as [mr mc] eqn:Hshape. simpl in *.
  rewrite !Nat.min_l by lia.
  rewrite bool_decide_eq_true_2 by auto.
  destruct (decide (mr = mr)); [|done].
  destruct (decide (mc = mc)); [|done].
  do 2 f_equal.
  rewrite alter_app_r_alt by lia. rewrite Nat.sub_diag. simpl. do 2 f_equal.
  pose proof (write_into_zeros zero m d1 d2 Hwf) as Hw.
  rewrite Hshape in Hw. simpl in Hw. by apply Hw.
Qed.

Lemma stack_loop (melspecs : list (ndarray2 float)) (d1 d2 k t : nat) :
  Forall wf2 melspecs →
  Forall (λ m, (shape2 m).1 ≤ d1 ∧ (shape2 m).2 ≤ d2) melspecs →
  t + k = length melspecs →
  foldM (λ stacked_arr i,
           melspec ← Py.index melspecs i;
           setitem_block stacked_arr i
             (shape2 melspec).1 (shape2 melspec).2 melspec)
        (seq t k)
        {| shape3 := (length melspecs, d1, d2);
           cells3 := ((λ m, pad_rows zero d1 d2 (cells2 m)) <$> take t melspecs)
                       ++ replicate k (replicate d1 (replicate d2 zero)) |}
  = Ok {| shape3 := (length melspecs, d1, d2);
          cells3 := (λ m, pad_rows zero d1 d2 (cells2 m)) <$> melspecs |}.
Proof.
  intros Hwf Hfit. revert t. induction k as [|k IH]; intros t Hlen; simpl.
  - rewrite app_nil_r, take_ge by lia. done.
  - destruct (lookup_lt_is_Some_2 melspecs t ltac:(lia)) as [m Hm].
    assert (Hidx : Py.index melspecs t = Ok m)
      by (unfold Py.index; by rewrite Hm).
    rewrite Hidx. simpl.
    pose proof (Forall_lookup_1 _ _ _ _ Hwf Hm) as Hwfm.
    pose proof (Forall_lookup_1 _ _ _ _ Hfit Hm) as [Hr Hc].
    set (done_ := (λ m, pad_rows zero d1 d2 (cells2 m)) <$> take t melspecs).
    assert (Hdone : length done_ = t).
    { unfold done_. rewrite length_fmap, length_take. lia. }
    rewrite <- Hdone at 1.
    rewrite (setitem_block_zeros m _ d1 d2 done_ _ Hwfm Hr Hc)
      by (rewrite length_replicate; lia).
    simpl. rewrite <- (IH (S t)) by lia.
    f_equal. f_equal.
    rewrite (take_S_r _ _ _ Hm), fmap_app. simpl.
    by rewrite <- app_assoc.
Qed.

(** The result of [_stack_melspecs] in closed form. *)
Lemma stack_melspecs_padded (self : Batch_generator) (filepath_list : list cell)
      (sources : list audio) (melspecs : list (ndarray2 float)) :
  filepath_list ≠ [] →
  mapM (λ file, load file (sr self) (sr self)) filepath_list = Ok sources →
  mapM (λ src, melspectrogram src (sr self)) sources = Ok melspecs →
  let d1 := max_list ((λ m, (shape2 m).1) <$> melspecs) in
  let d2 := max_list ((λ m, (shape2 m).2) <$> melspecs) in
  _stack_melspecs self filepath_list
  = Ok {| shape3 := (length filepath_list, d1, d2);
          cells3 := (λ m, pad_rows zero d1 d2 (cells2 m)) <$> melspecs |}.
Proof.
  intros Hne Hsources Hmelspecs d1 d2. unfold _stack_melspecs.
  rewrite Hsources. simpl. rewrite Hmelspecs. simpl.
  pose proof (mapM_Ok_length _ _ _ Hsources) as Hlen1.
  pose proof (mapM_Ok_length _ _ _ Hmelspecs) as Hlen2.
  assert (Hne' : melspecs ≠ []).
  { intros ->. destruct filepath_list; [done | simpl in *; lia]. }
  rewrite !py_max_nonempty by (by destruct melspecs).
  simpl. fold d1 d2. unfold range, zeros.
  replace (length filepath_list) with (length melspecs) by lia.
  pose proof (stack_loop melspecs d1 d2 (length melspecs) 0) as Hloop.
  simpl in Hloop. apply Hloop; [| |done].
  - apply Forall_lookup. intros i m Hm.
    destruct (mapM_Ok_lookup _ _ _ _ _ Hmelspecs Hm) as (src & _ & Hsrc).
    by eapply melspectrogram_wf.
  - apply Forall_lookup. intros i m Hm. split.
    + apply max_list_elem_of_le, list_elem_of_fmap. exists m. split; [done|].
      by eapply list_elem_of_lookup_2.
    + apply max_list_elem_of_le, list_elem_of_fmap. exists m. split; [done|].
      by eapply list_elem_of_lookup_2.
Qed.

End Stacking.

(** ** The batch generator *)

Section Generator.
Context `{Librosa}.
Import Batch_generator.

(** C1: for a non-empty list of files whose spectrograms load,
    [_stack_melspecs] returns a 3-D array whose shape is the number of
    files, the largest row count and the largest column count among the
    spectrograms; plane [i], cut to the shape of spectrogram [i], is that
    spectrogram, and every entry of the plane outside that region is
    zero. *)
Theorem stack_melspecs_zero_padded
        (self : Batch_generator) (filepath_list : list cell)
        (sources : list audio) (melspecs : list (ndarray2 float)) :
  filepath_list ≠ [] →
  mapM (λ file, load file (sr self) (sr self)) filepath_list = Ok sources →
  mapM (λ src, melspectrogram src (sr self)) sources = Ok melspecs →
  ∃ stacked,
    _stack_melspecs self filepath_list = Ok stacked ∧
    length melspecs = length filepath_list ∧
    shape3 stacked = (length filepath_list,
                      max_list ((λ m, (shape2 m).1) <$> melspecs),
                      max_list ((λ m, (shape2 m).2) <$> melspecs)) ∧
    wf3 stacked ∧
    ∀ i melspec, melspecs !! i = Some melspec →
      ∃ plane,
        cells3 stacked !! i = Some plane ∧
        take (shape2 melspec).2 <$> take (shape2 melspec).1 plane
          = cells2 melspec ∧
        ∀ j k row v,
          plane !! j = Some row → row !! k = Some v →
          ¬ (j < (shape2 melspec).1 ∧ k < (shape2 melspec).2)%nat →
          v = zero.
Proof.
  intros Hne Hsources Hmelspecs.
  pose proof (stack_melspecs_padded self _ _ _ Hne Hsources Hmelspecs) as Hstack.
  simpl in Hstack.
  set (d1 := max_list ((λ m, (shape2 m).1) <$> melspecs)) in *.
  set (d2 := max_list ((λ m, (shape2 m).2) <$> melspecs)) in *.
  pose proof (mapM_Ok_length _ _ _ Hsources) as Hlen1.
  pose proof (mapM_Ok_length _ _ _ Hmelspecs) as Hlen2.
  assert (Hfit : ∀ i m, melspecs !! i = Some m →
                        wf2 m ∧ ((shape2 m).1 ≤ d1 ∧ (shape2 m).2 ≤ d2)%nat).
  { intros i m Hm. split.
    - destruct (mapM_Ok_lookup _ _ _ _ _ Hmelspecs Hm) as (src & _ & Hsrc).
      by eapply melspectrogram_wf.
    - split; apply max_list_elem_of_le, list_elem_of_fmap; exists m;
        (split; [done | by eapply list_elem_of_lookup_2]). }
  eexists. split; [exact Hstack|]. simpl. split_and!.
  - lia.
  - done.
  - split; simpl.
    + rewrite length_fmap. lia.
    + apply Forall_fmap, Forall_lookup. intros i m Hm. simpl.
      destruct (Hfit i m Hm) as (Hwf & Hr & Hc).
      by eapply pad_rows_wf.
  - intros i m Hm. destruct (Hfit i m Hm) as (Hwf & Hr & Hc).
    exists (pad_rows zero d1 d2 (cells2 m)). split_and!.
    + by rewrite list_lookup_fmap, Hm.
    + by eapply pad_rows_restrict.
    + intros j k row v Hrow Hv Hout.
      by eapply (pad_rows_outside zero (cells2 m) d1 d2).
Qed.

(** C2: [__getitem__(idx)] returns the stacked spectrograms of the paths
    [mp3_paths[idx*b : (idx+1)*b]] paired with the label rows
    [labels[idx*b : (idx+1)*b]].  When that slice of paths is not empty
    and its files load, the call returns a pair: the first component has
    one plane per path of the slice, in order, and plane [k] is the
    spectrogram of path [k] of the slice, padded with zeros to the
    largest row count and the largest column count in the batch; the
    second component is the slice of the label rows.  For a batch index
    [idx >= 0] and a batch size [b >= 0] the two slices hold, in order,
    the tracks at positions [idx*b], ..., [(idx+1)*b - 1] (as far as the
    list goes). *)
Theorem getitem_batch_contents
        (self : Batch_generator) (idx : Z)
        (sources : list audio) (melspecs : list (ndarray2 float)) :
  let b := batch_size self in
  let paths := slice (mp3_paths self) (Some (idx * b)) (Some ((idx + 1) * b)) in
  let rows := slice (cells2 (labels self)) (Some (idx * b)) (Some ((idx + 1) * b)) in
  paths ≠ [] →
  mapM (λ file, load file (sr self) (sr self)) paths = Ok sources →
  mapM (λ src, melspectrogram src (sr self)) sources = Ok melspecs →
  let d1 := max_list ((λ m, (shape2 m).1) <$> melspecs) in
  let d2 := max_list ((λ m, (shape2 m).2) <$> melspecs) in
  __getitem__ self idx
  = Ok ({| shape3 := (length paths, d1, d2);
           cells3 := (λ m, pad_rows zero d1 d2 (cells2 m)) <$> melspecs |},
        {| shape2 := (length rows, (shape2 (labels self)).2);
           cells2 := rows |}) ∧
  Forall2 (λ file m, ∃ src, load file (sr self) (sr self) = Ok src ∧
                            melspectrogram src (sr self) = Ok m)
          paths melspecs ∧
  (0 ≤ idx → 0 ≤ b →
   let first := (Z.to_nat idx * Z.to_nat b)%nat in
   paths = take (Z.to_nat b) (drop first (mp3_paths self)) ∧
   rows = take (Z.to_nat b) (drop first (cells2 (labels self))) ∧
   ∀ k, (k < Z.to_nat b)%nat →
        paths !! k = mp3_paths self !! (first + k)%nat ∧
        rows !! k = cells2 (labels self) !! (first + k)%nat).
Proof.
  intros b paths rows Hne Hsources Hmelspecs d1 d2. split_and!.
  - unfold __getitem__, batch_x. fold b paths.
    rewrite (stack_melspecs_padded self _ _ _ Hne Hsources Hmelspecs).
    reflexivity.
  - apply Forall2_same_length_lookup. split.
    + pose proof (mapM_Ok_length _ _ _ Hsources).
      pose proof (mapM_Ok_length _ _ _ Hmelspecs). lia.
    + intros k file m Hfile Hm.
      destruct (mapM_Ok_lookup _ _ _ _ _ Hmelspecs Hm) as (src & Hsrc & Hmel).
      destruct (mapM_Ok_lookup _ _ _ _ _ Hsources Hsrc) as (file' & Hfile' & Hload).
      exists src. split; [|done]. congruence.
  - intros Hidx Hb first.
    assert (Hx : paths = take (Z.to_nat b) (drop first (mp3_paths self)))
      by (by apply slice_batch).
    assert (Hy : rows = take (Z.to_nat b) (drop first (cells2 (labels self))))
      by (by apply slice_batch).
    split_and!; [done | done |].
    intros k Hk. rewrite Hx, Hy.
    rewrite !lookup_take_lt by done. by rewrite !lookup_drop.
Qed.

(** C10: [_stack_melspecs] fails with the empty-maximum [ValueError] on an
    empty list, yet with a batch size of at least 1, at least one track
    and an index in [0, __len__()), the slice [__getitem__] passes on is
    not empty, both maxima are defined, and the call returns whenever the
    files load. *)
Theorem getitem_never_stacks_empty_batch
        (self : Batch_generator) (idx n_batches : Z) :
  1 ≤ batch_size self → mp3_paths self ≠ [] →
  __len__ self = Ok n_batches → 0 ≤ idx < n_batches →
  _stack_melspecs self [] = Raise ValueError ∧
  batch_x self idx ≠ [] ∧
  ∀ sources melspecs,
    mapM (λ file, load file (sr self) (sr self)) (batch_x self idx) = Ok sources →
    mapM (λ src, melspectrogram src (sr self)) sources = Ok melspecs →
    (∃ d1 d2, Py.max ((λ m, (shape2 m).1) <$> melspecs) = Ok d1 ∧
              Py.max ((λ m, (shape2 m).2) <$> melspecs) = Ok d2) ∧
    ∃ stacked, __getitem__ self idx = Ok (stacked, batch_y self idx).
Proof.
  intros Hb Hne Hlen Hidx.
  destruct (len_ceiling self Hb (len_no_overflow _ _ Hlen)) as [Hlen' Hceil].
  simpl in *.
  rewrite Hlen in Hlen'. injection Hlen' as ->.
  assert (Hbatch : batch_x self idx ≠ []).
  { unfold batch_x. rewrite slice_batch by lia.
    intros Hnil. apply (f_equal length) in Hnil.
    rewrite length_take, length_drop in Hnil. simpl in Hnil. nia. }
  split_and!; [reflexivity | done |].
  intros sources melspecs Hsources Hmelspecs.
  pose proof (mapM_Ok_length _ _ _ Hsources) as Hlen1.
  pose proof (mapM_Ok_length _ _ _ Hmelspecs) as Hlen2.
  split.
  - assert (melspecs ≠ []).
    { intros ->. destruct (batch_x self idx); [done | simpl in *; lia]. }
    rewrite !py_max_nonempty by (by destruct melspecs). eauto.
  - unfold __getitem__.
    rewrite (stack_melspecs_padded self _ _ _ Hbatch Hsources Hmelspecs).
    simpl. eauto.
Qed.

End Generator.

Section GeneratorPure.
Import Batch_generator.
Local Open Scope nat_scope.

(** C3: with [n] tracks and a batch size [b >= 1] that [float] can
    convert, which is [b < 2^1024 - 2^970], [__len__] returns the ceiling
    of [n / b]; the path slices of the batches [0], ..., [__len__() - 1],
    one after the other, are the whole track list; and every position of
    the list lies in exactly one of those batches.  With a larger batch
    size [__len__] raises [OverflowError]. *)
Theorem len_batches_partition (self : Batch_generator) :
  (1 ≤ batch_size self)%Z →
  let n := length (mp3_paths self) in
  let b := Z.to_nat (batch_size self) in
  ((batch_size self < 2 ^ 1024 - 2 ^ 970)%Z →
   ∃ n_batches : nat,
     __len__ self = Ok (Z.of_nat n_batches) ∧
     n ≤ b * n_batches ∧ (n_batches = 0 ∨ b * (n_batches - 1) < n) ∧
     concat ((λ idx, batch_x self (Z.of_nat idx)) <$> seq 0 n_batches)
       = mp3_paths self ∧
     (∀ idx k, k < b →
               batch_x self (Z.of_nat idx) !! k = mp3_paths self !! (idx * b + k)) ∧
     (∀ idx, length (batch_x self (Z.of_nat idx)) ≤ b) ∧
     ∀ p, p < n → exists! idx, idx < n_batches ∧ idx * b ≤ p < idx * b + b) ∧
  ((2 ^ 1024 - 2 ^ 970 ≤ batch_size self)%Z →
   __len__ self = Raise OverflowError).
Proof.
  intros Hb n b. split; [intros Hfl | intros Hfl]; cycle 1.
  { unfold __len__. rewrite decide_True; [done|].
    unfold float_overflows. lia. }
  assert (Hfl' : ¬ float_overflows (batch_size self))
    by (unfold float_overflows; lia).
  destruct (len_ceiling self Hb Hfl') as [Hlen Hceil]. simpl in *.
  set (L := ((Z.of_nat (length (mp3_paths self)) + batch_size self - 1)
               / batch_size self)%Z) in *.
  assert (HL : (0 ≤ L)%Z) by (apply Z.div_pos; lia).
  assert (Hchunk : ∀ idx, batch_x self (Z.of_nat idx)
                          = take b (drop (idx * b) (mp3_paths self))).
  { intros idx. unfold batch_x. rewrite slice_batch by lia.
    by rewrite Nat2Z.id. }
  exists (Z.to_nat L). split_and!.
  - by rewrite Z2Nat.id.
  - unfold n, b. nia.
  - unfold n, b. destruct (decide (Z.to_nat L = 0)); [by left | right; nia].
  - rewrite (list_fmap_ext _ (λ idx, take b (drop (idx * b) (mp3_paths self)))
               _ (λ _ idx _, Hchunk idx)).
    rewrite concat_chunks. apply take_ge. unfold b. nia.
  - intros idx k Hk. rewrite Hchunk, lookup_take_lt by done.
    by rewrite lookup_drop.
  - intros idx. rewrite Hchunk, length_take. lia.
  - intros p Hp. exists (p / b). split.
    + assert (0 < b) by (unfold b; lia).
      pose proof (Nat.div_mod_eq p b). pose proof (Nat.mod_upper_bound p b).
      split; [|nia]. unfold n, b in *.
      apply Nat.Div0.div_lt_upper_bound. nia.
    + intros idx [_ Hidx]. symmetry. apply Nat.div_unique with (p - idx * b); lia.
Qed.

(** C9: the stored [duration] influences no output: generators built from
    the same frame, batch size and sample rate with two durations give
    the same [__len__] and, for every index, the same [__getitem__]; the
    same holds of any two generators that differ in [duration] only. *)
Theorem duration_never_read `{Librosa}
        (meta_df : DataFrame scalar) (batch_size_ sr_ d d' : Z) (idx : Z) :
  (__init__ meta_df batch_size_ sr_ d ≫= __len__)
    = (__init__ meta_df batch_size_ sr_ d' ≫= __len__) ∧
  (__init__ meta_df batch_size_ sr_ d ≫= λ g, __getitem__ g idx)
    = (__init__ meta_df batch_size_ sr_ d' ≫= λ g, __getitem__ g idx) ∧
  ∀ g g' : Batch_generator,
    mp3_paths g = mp3_paths g' → labels g = labels g' →
    batch_size g = batch_size g' → sr g = sr g' →
    __len__ g = __len__ g' ∧ __getitem__ g idx = __getitem__ g' idx.
Proof.
  split_and!.
  - unfold __init__.
    destruct (getitem meta_df _) as [[]|]; simpl; try done.
    destruct (getattr meta_df _) as [[]|]; simpl; try done.
    destruct (loc_columns meta_df _); simpl; done.
  - unfold __init__.
    destruct (getitem meta_df _) as [[]|]; simpl; try done.
    destruct (getattr meta_df _) as [[]|]; simpl; try done.
    destruct (loc_columns meta_df _); simpl; done.
  - intros [] []; simpl. intros -> -> -> ->. done.
Qed.

End GeneratorPure.

(** ** The generator on a sample *)

Lemma stack_melspecs_zero_padded_witness :
  ∃ stacked,
    @Batch_generator._stack_melspecs _ sample_librosa (sample_generator 30)
      [Some (SStr (lit "a.mp3")); Some (SStr (lit "bb.mp3"))] = Ok stacked ∧
    shape3 stacked = (2, 2, 6)%nat.
Proof.
  destruct (@stack_melspecs_zero_padded _ sample_librosa (sample_generator 30)
              [Some (SStr (lit "a.mp3")); Some (SStr (lit "bb.mp3"))]
              [5; 6]%nat
              [ {| shape2 := (2, 5)%nat; cells2 := replicate 2 (replicate 5 1) |};
                {| shape2 := (2, 6)%nat; cells2 := replicate 2 (replicate 6 1) |} ])
    as (stacked & Hstacked & _ & Hshape & _).
  - discriminate.
  - reflexivity.
  - reflexivity.
  - exists stacked. split; [exact Hstacked | exact Hshape].
Defined.

Lemma getitem_batch_contents_witness :
  @Batch_generator.__getitem__ _ sample_librosa (sample_generator 30) 0
  = Ok ({| shape3 := (2, 2, 6)%nat;
           cells3 := [ [[1; 1; 1; 1; 1; 0]; [1; 1; 1; 1; 1; 0]];
                       [[1; 1; 1; 1; 1; 1]; [1; 1; 1; 1; 1; 1]] ] |},
        {| shape2 := (2, 2)%nat;
           cells2 := [[Some (SInt 1); Some (SInt 0)];
                      [Some (SInt 0); Some (SInt 1)]] |}).
Proof.
  destruct (@getitem_batch_contents _ sample_librosa (sample_generator 30) 0
              [5; 6]%nat
              [ {| shape2 := (2, 5)%nat; cells2 := replicate 2 (replicate 5 1) |};
                {| shape2 := (2, 6)%nat; cells2 := replicate 2 (replicate 6 1) |} ])
    as (Hreturn & _).
  - discriminate.
  - reflexivity.
  - reflexivity.
  - exact Hreturn.
Defined.

Lemma len_batches_partition_witness :
  ∃ n_batches : nat,
    Batch_generator.__len__ (sample_generator 30) = Ok (Z.of_nat n_batches) ∧
    concat ((λ idx, Batch_generator.batch_x (sample_generator 30) (Z.of_nat idx))
              <$> seq 0 n_batches)
    = mp3_paths (sample_generator 30).
Proof.
  destruct (len_batches_partition (sample_generator 30)) as [Hreturn _].
  - simpl. lia.
  - destruct Hreturn as (n_batches & Hlen & _ & _ & Hall & _).
    + simpl. lia.
    + exists n_batches. split; [exact Hlen | exact Hall].
Defined.

(** A batch size that no double holds: [__len__] raises, where the
    ceiling of [3 / 2^1024] is 1; the first batch is the whole list all
    the same. *)
Lemma len_overflow_counterexample :
  1 ≤ batch_size oversized_generator ∧
  Batch_generator.__len__ oversized_generator = Raise OverflowError ∧
  (∀ n_batches, Batch_generator.__len__ oversized_generator ≠ Ok n_batches) ∧
  Batch_generator.batch_x oversized_generator 0 = mp3_paths oversized_generator.
Proof.
  assert (Hlen : Batch_generator.__len__ oversized_generator = Raise OverflowError)
    by (vm_compute; reflexivity).
  split_and!.
  - vm_compute. discriminate.
  - exact Hlen.
  - intros n_batches Hok. rewrite Hlen in Hok. discriminate.
  - vm_compute. reflexivity.
Qed.

Lemma duration_never_read_witness :
  Batch_generator.__len__ (sample_generator 30)
    = Batch_generator.__len__ (sample_generator 5) ∧
  @Batch_generator.__getitem__ _ sample_librosa (sample_generator 30) 1
    = @Batch_generator.__getitem__ _ sample_librosa (sample_generator 5) 1.
Proof.
  apply (@duration_never_read _ sample_librosa
           {| index := RangeIndex 0; columns := [] |} 2 22050 30 5 1);
    reflexivity.
Defined.

Lemma getitem_never_stacks_empty_batch_witness :
  Batch_generator.batch_x (sample_generator 30) 1 ≠ [] ∧
  ∃ stacked,
    @Batch_generator.__getitem__ _ sample_librosa (sample_generator 30) 1
    = Ok (stacked, Batch_generator.batch_y (sample_generator 30) 1).
Proof.
  destruct (@getitem_never_stacks_empty_batch _ sample_librosa
              (sample_generator 30) 1 2)
    as (_ & Hne & Hok).
  - simpl. lia.
  - discriminate.
  - reflexivity.
  - lia.
  - split; [exact Hne|].
    apply (Hok [5%nat]
             [ {| shape2 := (2, 5)%nat; cells2 := replicate 2 (replicate 5 1) |} ]);
      reflexivity.
Defined.

(** ** Frames: selecting columns by label *)

Section LabelFacts.
Context {L V : Type} `{EqDecision L}.
Implicit Types cols : list (L * V).

Lemma filter_label_absent cols (k : L) :
  k ∉ cols.*1 → filter (λ c, c.1 = k) cols = [].
Proof.
  induction cols as [|[k' v'] cols IH]; [done|].
  rewrite fmap_cons, not_elem_of_cons. simpl. intros [Hne Hnot].
  rewrite filter_cons_False by (simpl; congruence). by apply IH.
Qed.

Lemma filter_label_unique cols (k : L) (v : V) :
  NoDup cols.*1 → (k, v) ∈ cols → filter (λ c, c.1 = k) cols = [(k, v)].
Proof.
  induction cols as [|[k' v'] cols IH]; [by intros _ ?%elem_of_nil|].
  rewrite fmap_cons, NoDup_cons. simpl. intros [Hnot Hnd] Hin.
  apply elem_of_cons in Hin as [[= <- <-]|Hin].
  - rewrite filter_cons_True by done. f_equal. by apply filter_label_absent.
  - rewrite filter_cons_False; [by apply IH|].
    simpl. intros ->. apply Hnot.
    apply list_elem_of_fmap. by exists (k, v).
Qed.

End LabelFacts.

Section UniqueFacts.
Context {A : Type} `{EqDecision A}.
Implicit Types l : list A.

Lemma elem_of_unique l x : x ∈ unique l ↔ x ∈ l.
Proof.
  induction l as [|y l IH]; simpl; [done|].
  rewrite !elem_of_cons, list_elem_of_filter, IH.
  destruct (decide (x = y)); tauto.
Qed.

Lemma NoDup_unique l : NoDup (unique l).
Proof.
  induction l as [|y l IH]; simpl; [constructor|].
  apply NoDup_cons. split.
  - rewrite list_elem_of_filter. intros [Hne _]. by apply Hne.
  - by apply NoDup_filter.
Qed.

End UniqueFacts.

Section ResultListFacts.
Context {A B : Type}.

Lemma mapM_Ok_fmap (f : A → result B) (g : A → B) (l : list A) :
  (∀ x, x ∈ l → f x = Ok (g x)) → mapM f l = Ok (g <$> l).
Proof.
  intros Hf. apply mapM_Ok_Forall2, Forall2_fmap_r, Forall_Forall2_diag.
  by apply Forall_forall.
Qed.

Lemma mapM_Raise (f : A → result B) (e : exn) (l : list A) (x : A) :
  x ∈ l → f x = Raise e →
  (∀ y e', y ∈ l → f y = Raise e' → e' = e) →
  mapM f l = Raise e.
Proof.
  induction l as [|y l IH]; [by intros ?%elem_of_nil|].
  intros Hin Hx Hall. simpl.
  destruct (f y) as [b|e'] eqn:Hy; simpl.
  - apply elem_of_cons in Hin as [->|Hin]; [congruence|].
    rewrite IH; [done | done | done |].
    intros y' e'' Hy' ?. apply (Hall y' e''); [by right | done].
  - f_equal. apply (Hall y e'); [by left | done].
Qed.

End ResultListFacts.

(** ** One-hot encoding *)

Section Encoding.
Context `{Pandas}.
Import Batch_generator.

(** C8: the result of [attach_onehot_encoding] does not depend on
    [column_name]; whatever the argument, a frame that is returned has the
    index and, first, all the columns of [df], followed by the dummy columns
    of its ['genre'] column. *)
Theorem attach_onehot_encoding_ignores_column_name
        (df : DataFrame scalar) (c1 c2 : cell) :
  attach_onehot_encoding df c1 = attach_onehot_encoding df c2 ∧
  ∀ df', attach_onehot_encoding df c1 = Ok df' →
    ∃ genre, getattr df (SStr (lit "genre")) = Ok genre ∧
             index df' = index df ∧
             columns df' = columns df ++ columns (get_dummies genre).
Proof.
  split; [reflexivity|]. intros df'. unfold attach_onehot_encoding.
  destruct (getattr df _) as [genre|]; [|discriminate]. simpl.
  intros [= <-]. by exists genre.
Qed.

Lemma NoDup_omap_id {A : Type} (l : list (option A)) :
  NoDup l → NoDup (omap id l).
Proof.
  induction 1 as [|[x|] l Hnot Hnd IH]; simpl; [constructor | | done].
  apply NoDup_cons. split; [|done].
  rewrite list_elem_of_omap. intros ([y|] & Hy & [=]). by subst.
Qed.

Lemma elem_of_levels (values : list cell) (v : scalar) :
  v ∈ levels values ↔ Some v ∈ values.
Proof.
  unfold levels. rewrite sort_levels_perm, list_elem_of_omap. split.
  - intros (y & Hy & Hid). unfold id in Hid. subst.
    exact (proj1 (elem_of_unique _ _) Hy).
  - intros Hv. exists (Some v). split; [|done].
    exact (proj2 (elem_of_unique _ _) Hv).
Qed.

Lemma NoDup_levels (values : list cell) : NoDup (levels values).
Proof.
  unfold levels. rewrite sort_levels_perm.
  apply NoDup_omap_id, NoDup_unique.
Qed.

Lemma dummies_labelled (values : list cell) (k : scalar) :
  filter (λ c, c.1 = k) ((λ v, (v, indicator values v)) <$> levels values)
  = if decide (Some k ∈ values) then [(k, indicator values k)] else [].
Proof.
  assert (Hlabels : ((λ v, (v, indicator values v)) <$> levels values).*1
                    = levels values).
  { rewrite <- list_fmap_compose. apply list_fmap_id. }
  destruct (decide (Some k ∈ values)) as [Hin|Hnot].
  - apply filter_label_unique.
    + rewrite Hlabels. apply NoDup_levels.
    + apply list_elem_of_fmap. exists k. split; [done|].
      by apply elem_of_levels.
  - apply filter_label_absent. rewrite Hlabels. by rewrite elem_of_levels.
Qed.

Lemma indicator_row_zero (levels_ : list scalar) (x : scalar) :
  x ∉ levels_ →
  filter (λ c, c = Some (SInt 1))
         ((λ v, Some (SInt (if decide (Some x = Some v) then 1 else 0)))
            <$> levels_) = [].
Proof.
  induction levels_ as [|u U IH]; [done|].
  rewrite not_elem_of_cons, fmap_cons. intros [Hne Hnot].
  rewrite filter_cons_False; [by apply IH|].
  destruct (decide (Some x = Some u)); [congruence | discriminate].
Qed.

(** In a row of indicator entries over distinct levels, the level of the
    row is the one entry equal to 1. *)
Lemma one_hot_indicator_row (levels_ : list scalar) (x : scalar) :
  NoDup levels_ → x ∈ levels_ →
  one_hot ((λ v, Some (SInt (if decide (Some x = Some v) then 1 else 0)))
             <$> levels_).
Proof.
  intros Hnd Hin. split.
  - induction Hnd as [|u U Hnot Hnd IH]; [by apply elem_of_nil in Hin|].
    rewrite fmap_cons.
    destruct (decide (Some x = Some u)) as [[= ->]|Hne].
    + rewrite filter_cons_True by done. simpl.
      by rewrite indicator_row_zero.
    + rewrite filter_cons_False by discriminate.
      apply IH. apply elem_of_cons in Hin as [->|]; [done|done].
  - apply Forall_fmap, Forall_forall. intros v _. simpl.
    destruct (decide (Some x = Some v)); auto.
Qed.

End Encoding.

Section OneHotLabels.
Context `{Pandas}.
Import Batch_generator.
Variables (df : DataFrame scalar) (genres paths : list cell).
Hypothesis Hlabels : NoDup (columns df).*1.
Hypothesis Hgenre : (SStr (lit "genre"), genres) ∈ columns df.
Hypothesis Hpaths : (SStr (lit "mp3_path"), paths) ∈ columns df.
Hypothesis Hwf : wf df.
Hypothesis Hfresh : ∀ v, Some v ∈ genres → v ∉ (columns df).*1.

Lemma attach_with_dummies (c : cell) :
  attach_onehot_encoding df c = Ok (with_dummies df genres).
Proof.
  unfold attach_onehot_encoding, getattr, select, labelled.
  by rewrite (filter_label_unique _ _ _ Hlabels Hgenre).
Qed.

Lemma with_dummies_old (k : scalar) (v : list cell) :
  (k, v) ∈ columns df → labelled k (with_dummies df genres) = [(k, v)].
Proof.
  intros Hin. unfold labelled, with_dummies. simpl.
  rewrite filter_app, (filter_label_unique _ _ _ Hlabels Hin), dummies_labelled.
  destruct (decide (Some k ∈ genres)) as [Hk|]; [|done].
  destruct (Hfresh k Hk). apply list_elem_of_fmap. by exists (k, v).
Qed.

Lemma with_dummies_new (k : scalar) :
  Some k ∈ genres →
  labelled k (with_dummies df genres) = [(k, indicator genres k)].
Proof.
  intros Hk. unfold labelled, with_dummies. simpl.
  rewrite filter_app, (filter_label_absent _ _ (Hfresh k Hk)), dummies_labelled.
  by rewrite decide_True.
Qed.

Lemma concat_present {A B : Type} (f : A → B) (l : list (option A)) :
  concat ((λ key, match key with Some k => [f k] | None => [] end) <$> l)
  = f <$> omap id l.
Proof.
  induction l as [|[k|] l IH]; simpl; [done | f_equal; apply IH | apply IH].
Qed.

Lemma init_with_dummies_nan (b sr_ d : Z) :
  None ∈ genres → __init__ (with_dummies df genres) b sr_ d = Raise KeyError.
Proof.
  intros Hnan. unfold __init__, getitem, getattr, select.
  rewrite (with_dummies_old _ _ Hpaths), (with_dummies_old _ _ Hgenre). simpl.
  unfold loc_columns.
  rewrite (mapM_Raise _ KeyError _ None); [done | | done |].
  - exact (proj2 (elem_of_unique _ _) Hnan).
  - intros [k|] e _; [|by intros [= <-]].
    destruct (labelled k _); [by intros [= <-] | discriminate].
Qed.

Lemma init_with_dummies (b sr_ d : Z) :
  None ∉ genres →
  __init__ (with_dummies df genres) b sr_ d
  = Ok {| mp3_paths := paths;
          labels := to_numpy
                      {| index := index df;
                         columns := (λ v, (v, indicator genres v))
                                      <$> omap id (unique genres) |};
          batch_size := b; sr := sr_; duration := d |}.
Proof.
  intros Hnan. unfold __init__, getitem, getattr, select.
  rewrite (with_dummies_old _ _ Hpaths), (with_dummies_old _ _ Hgenre). simpl.
  unfold loc_columns.
  rewrite (mapM_Ok_fmap _ (λ key, match key with
                                  | Some k => [(k, indicator genres k)]
                                  | None => []
                                  end)).
  - simpl. by rewrite concat_present.
  - intros key Hkey. pose proof (proj1 (elem_of_unique _ _) Hkey) as Hk.
    destruct key as [k|]; [|by destruct Hnan].
    by rewrite (with_dummies_new _ Hk).
Qed.

Lemma encoded_rows_one_hot :
  None ∉ genres →
  Forall one_hot
    (cells2 (to_numpy {| index := index df;
                         columns := (λ v, (v, indicator genres v))
                                      <$> omap id (unique genres) |})).
Proof.
  intros Hnan. simpl. apply Forall_fmap, Forall_forall.
  intros r Hr%elem_of_seq. simpl.
  assert (Hlen : length genres = length (row_labels (index df))).
  { pose proof Hwf as Hall. unfold wf in Hall. rewrite Forall_forall in Hall.
    exact (Hall _ Hgenre). }
  destruct (lookup_lt_is_Some_2 genres r ltac:(lia)) as [[x|] Hx].
  - rewrite <- list_fmap_compose.
    rewrite (list_fmap_ext _
               (λ v, Some (SInt (if decide (Some x = Some v) then 1 else 0)))
               (omap id (unique genres))).
    + apply one_hot_indicator_row.
      * apply NoDup_omap_id, NoDup_unique.
      * apply list_elem_of_omap. exists (Some x). split; [|done].
        apply elem_of_unique. by eapply list_elem_of_lookup_2.
    + intros i v _. simpl. unfold indicator.
      by rewrite list_lookup_fmap, Hx.
  - destruct Hnan. by eapply list_elem_of_lookup_2.
Qed.

Lemma batch_y_rows (g : Batch_generator) (idx : Z) (P : list cell → Prop) :
  Forall P (cells2 (labels g)) → Forall P (cells2 (batch_y g idx)).
Proof.
  intros Hall. unfold batch_y, rows_slice, slice. simpl.
  by apply Forall_take, Forall_drop.
Qed.

(** Where no genre value is spelled like a column label of the frame, every
    label row the generator hands out is one-hot (and a generator exists
    unless a genre is missing, in which case building it raises). *)
Lemma label_rows_one_hot (c : cell) (b sr_ d : Z) :
  attach_onehot_encoding df c = Ok (with_dummies df genres) ∧
  (None ∈ genres → __init__ (with_dummies df genres) b sr_ d = Raise KeyError) ∧
  (None ∉ genres →
   ∃ g, __init__ (with_dummies df genres) b sr_ d = Ok g ∧ mp3_paths g = paths ∧
        shape2 (labels g) = (length (row_labels (index df)),
                             length (omap id (unique genres)))) ∧
  ∀ g, __init__ (with_dummies df genres) b sr_ d = Ok g →
       ∀ idx, Forall one_hot (cells2 (batch_y g idx)).
Proof.
  split_and!.
  - apply attach_with_dummies.
  - apply init_with_dummies_nan.
  - intros Hnan. eexists. split; [by apply init_with_dummies|].
    simpl. by rewrite length_fmap.
  - intros g Hg idx. destruct (decide (None ∈ genres)) as [Hnan|Hnan].
    + rewrite init_with_dummies_nan in Hg by done. discriminate.
    + rewrite init_with_dummies in Hg by done. injection Hg as <-.
      apply batch_y_rows. simpl. by apply encoded_rows_one_hot.
Qed.

End OneHotLabels.

(** Closed decidable goals are settled by evaluation. *)
Ltac by_computation := apply (bool_decide_unpack _); vm_compute; exact I.

Lemma attach_onehot_encoding_ignores_column_name_witness :
  ∃ genre,
    getattr sample_metadata (SStr (lit "genre")) = Ok genre ∧
    columns (with_dummies (H := sample_pandas []) sample_metadata
               [Some (SStr (lit "Rock")); Some (SStr (lit "Folk"))])
    = columns sample_metadata ++ columns (get_dummies (H := sample_pandas []) genre).
Proof.
  destruct (@attach_onehot_encoding_ignores_column_name (sample_pandas [])
              sample_metadata (Some (SStr (lit "genre"))) None)
    as [_ Hcols].
  destruct (Hcols (with_dummies (H := sample_pandas []) sample_metadata
                     [Some (SStr (lit "Rock")); Some (SStr (lit "Folk"))]))
    as (genre & Hgenre & _ & Hsame).
  - vm_compute. reflexivity.
  - exists genre. split; [exact Hgenre | exact Hsame].
Defined.

(** On the sample frame the two label rows are one-hot. *)
Example label_rows_one_hot_sample :
  ∃ g, Batch_generator.__init__
         (with_dummies (H := sample_pandas []) sample_metadata
            [Some (SStr (lit "Rock")); Some (SStr (lit "Folk"))]) 2 22050 30 = Ok g ∧
       cells2 (Batch_generator.batch_y g 0)
       = [[Some (SInt 1); Some (SInt 0)]; [Some (SInt 0); Some (SInt 1)]] ∧
       Forall one_hot (cells2 (Batch_generator.batch_y g 0)).
Proof.
  eexists. split; [vm_compute; reflexivity|]. split; [vm_compute; reflexivity|].
  eapply (@label_rows_one_hot (sample_pandas []) sample_metadata
            [Some (SStr (lit "Rock")); Some (SStr (lit "Folk"))]
            [Some (SStr (lit "a.mp3")); Some (SStr (lit "bb.mp3"))]).
  - by_computation.
  - by_computation.
  - by_computation.
  - unfold wf. by_computation.
  - intros v Hv.
    repeat (apply elem_of_cons in Hv as [[= ->]|Hv]; [by_computation|]).
    by apply elem_of_nil in Hv.
  - exact (Some (SStr (lit "genre"))).
  - vm_compute. reflexivity.
Qed.

(** C6 at a frame whose one genre is spelled "track_id": the encoded frame
    carries that label twice, the generator selects both columns, and the
    label row of the track is [2, 1], which is not one-hot. *)
Theorem label_row_not_one_hot_on_label_collision :
  ∃ df' g,
    @attach_onehot_encoding (sample_pandas []) colliding_metadata None = Ok df' ∧
    Batch_generator.__init__ df' 1 22050 30 = Ok g ∧
    cells2 (Batch_generator.batch_y g 0) = [[Some (SInt 2); Some (SInt 1)]] ∧
    ¬ Forall one_hot (cells2 (Batch_generator.batch_y g 0)).
Proof.
  do 2 eexists. split_and!.
  - vm_compute. reflexivity.
  - vm_compute. reflexivity.
  - vm_compute. reflexivity.
  - apply (bool_decide_eq_false_1 _). vm_compute. reflexivity.
Qed.

(** ** Frames: selecting rows by a mask *)

Section MaskFacts.
Context {A : Type}.
Implicit Types (mask : list bool) (l : list A).
Local Open Scope nat_scope.

Lemma keep_rows_nil_r mask : keep_rows mask ([] : list A) = [].
Proof. by destruct mask. Qed.

Lemma keep_rows_cons (b : bool) mask (x : A) l :
  keep_rows (b :: mask) (x :: l)
  = if b then x :: keep_rows mask l else keep_rows mask l.
Proof.
  unfold keep_rows. simpl. destruct b.
  - by rewrite filter_cons_True.
  - by rewrite filter_cons_False.
Qed.

Lemma elem_of_keep_rows mask l (x : A) :
  x ∈ keep_rows mask l ↔ ∃ i, mask !! i = Some true ∧ l !! i = Some x.
Proof.
  revert l. induction mask as [|b mask IH]; intros l.
  - split; [by intros ?%elem_of_nil | by intros (i & ? & _)].
  - destruct l as [|y l].
    + rewrite keep_rows_nil_r.
      split; [by intros ?%elem_of_nil | by intros (i & _ & ?)].
    + rewrite keep_rows_cons. split.
      * destruct b.
        -- intros [->|Hin]%elem_of_cons; [by exists 0|].
           apply IH in Hin as (i & ? & ?). by exists (S i).
        -- intros Hin. apply IH in Hin as (i & ? & ?). by exists (S i).
      * intros ([|i] & Hb & Hx); simpl in *.
        -- injection Hb as ->. injection Hx as ->. left.
        -- assert (x ∈ keep_rows mask l) by (apply IH; eauto).
           destruct b; [by right | done].
Qed.

Lemma keep_rows_subseteq mask l : keep_rows mask l ⊆ l.
Proof.
  intros x (i & _ & Hx)%elem_of_keep_rows. by eapply list_elem_of_lookup_2.
Qed.

Lemma keep_rows_true mask l :
  Forall (λ b, b = true) mask → length l ≤ length mask → keep_rows mask l = l.
Proof.
  intros Hall. revert l. induction Hall as [|b mask -> _ IH]; intros l Hlen.
  - destruct l; [done | simpl in Hlen; lia].
  - destruct l as [|x l]; [done|]. rewrite keep_rows_cons. f_equal.
    apply IH. simpl in Hlen. lia.
Qed.

Lemma keep_rows_length {B : Type} mask l (k : list B) :
  length l = length k → length (keep_rows mask l) = length (keep_rows mask k).
Proof.
  revert l k. induction mask as [|b mask IH]; intros l k Hlen; [done|].
  destruct l as [|x l], k as [|y k]; try done.
  unfold keep_rows in *. simpl. injection Hlen as Hlen.
  destruct b.
  - rewrite !filter_cons_True by done. simpl. f_equal. by apply IH.
  - rewrite !filter_cons_False by done. by apply IH.
Qed.

Lemma mask_sum_zero mask : mask_sum mask = 0 → Forall (λ b, b = false) mask.
Proof.
  unfold mask_sum. intros Hnil%length_zero_iff_nil.
  apply Forall_forall. intros [] Hin; [|done].
  by destruct (filter_nil_not_elem_of _ _ true Hnil eq_refl).
Qed.

(** Dropping the rows a mask selects, by their labels, keeps the rows of
    the complementary mask when the labels are pairwise distinct. *)
Lemma drop_mask `{EqDecision A} mask l :
  NoDup l → length mask = length l →
  (λ x, bool_decide (x ∉ keep_rows mask l)) <$> l = negb <$> mask.
Proof.
  intros Hnd Hlen. apply list_eq. intros i. rewrite !list_lookup_fmap.
  destruct (l !! i) as [x|] eqn:Hx; simpl.
  - destruct (lookup_lt_is_Some_2 mask i) as [b Hb].
    { rewrite Hlen. by eapply lookup_lt_Some. }
    rewrite Hb. simpl. f_equal. destruct b; simpl.
    + apply bool_decide_eq_false. intros Hnot. apply Hnot.
      apply elem_of_keep_rows. eauto.
    + apply bool_decide_eq_true. intros (j & Hj & Hxj)%elem_of_keep_rows.
      assert (i = j) as -> by (by eapply NoDup_lookup). congruence.
  - rewrite (lookup_ge_None_2 mask i); [done|].
    rewrite Hlen. by apply lookup_ge_None.
Qed.

End MaskFacts.

(** ** Assigning a column *)

Section SetItemFacts.
Context {L : Type} `{EqDecision L}.
Implicit Types df : DataFrame L.

(** With one value per row the frame keeps its rows. *)
Lemma ensure_valid_index_rows df (values : list cell) :
  length values = length (row_labels (index df)) →
  ensure_valid_index df values = df.
Proof.
  intros Hlen. unfold ensure_valid_index.
  destruct (decide _) as [[Hnil Hne]|]; [|done].
  rewrite Hnil in Hlen. by destruct values.
Qed.

Lemma setitem_rows df (key : L) (values : list cell) :
  length values = length (row_labels (index df)) →
  setitem df key values
  = Ok {| index := index df;
          columns :=
            if decide (key ∈ (columns df).*1)
            then (λ c, if decide (c.1 = key) then (key, values) else c)
                   <$> columns df
            else columns df ++ [(key, values)] |}.
Proof.
  intros Hlen. unfold setitem. rewrite ensure_valid_index_rows by done.
  simpl. by rewrite decide_True.
Qed.

(** A frame that has rows, or a list without values, and the numbers
    differ: nothing is assigned. *)
Lemma setitem_mismatch df (key : L) (values : list cell) :
  length values ≠ length (row_labels (index df)) →
  row_labels (index df) ≠ [] ∨ values = [] →
  setitem df key values = Raise ValueError.
Proof.
  intros Hlen Hrows. unfold setitem, ensure_valid_index.
  destruct (decide (row_labels (index df) = [] ∧ values ≠ [])); [tauto|].
  by rewrite decide_False.
Qed.

(** A frame without rows takes the rows of a non-empty list. *)
Lemma setitem_no_rows df (key : L) (values : list cell) :
  row_labels (index df) = [] → values ≠ [] →
  setitem df key values
  = Ok {| index := {| name := name (index df);
                      row_labels := row_labels (RangeIndex (length values)) |};
          columns :=
            let cols := prod_map id (λ _, replicate (length values) None)
                          <$> columns df in
            if decide (key ∈ cols.*1)
            then (λ c, if decide (c.1 = key) then (key, values) else c) <$> cols
            else cols ++ [(key, values)] |}.
Proof.
  intros Hnil Hne. unfold setitem, ensure_valid_index.
  destruct (decide (row_labels (index df) = [] ∧ values ≠ [])); [|tauto].
  simpl. rewrite decide_True by (by rewrite length_fmap, length_seq).
  done.
Qed.

End SetItemFacts.

(** ** Reading the metadata *)

Section Metadata.
Context `{Pandas}.
Local Open Scope nat_scope.

Lemma labelled_loc_rows {L : Type} `{EqDecision L}
      (df : DataFrame L) (mask : list bool) (k : L) :
  labelled k (loc_rows df mask) = prod_map id (keep_rows mask) <$> labelled k df.
Proof.
  unfold labelled, loc_rows. simpl.
  induction (columns df) as [|[k' v] cols IH]; [done|].
  rewrite fmap_cons. destruct (decide (k' = k)) as [->|Hne].
  - rewrite !filter_cons_True by done. rewrite fmap_cons. by rewrite IH.
  - rewrite !filter_cons_False by done. done.
Qed.

Lemma isin_good (s : Series) (vs : list cell) :
  (λ c, bool_decide (c ∉ vs)) <$> s_values s = negb <$> isin s vs.
Proof.
  unfold isin. rewrite <- list_fmap_compose.
  apply list_fmap_ext. intros _ c _. simpl. apply bool_decide_not.
Qed.


End Metadata.


(** The same call, evaluated: one row is dropped and the message counts the
    bad paths. *)
Example read_metadata_file_sample :
  @read_metadata_file (sample_pandas [(lit "tracks.csv", sample_tracks)])
    (lit "tracks.csv") [lit "a.mp3"; lit "bb.mp3"] [lit "bb.mp3"]
  = Ok ({| index := {| name := None; row_labels := [Some (SInt 0)] |};
           columns := [(SStr (lit "track_id"), [Some (SInt 2)]);
                       (SStr (lit "genre"), [Some (SStr (lit "Rock"))]);
                       (SStr (lit "mp3_path"), [Some (SStr (lit "a.mp3"))])] |},
        [lit "Dropped 1 rows from the dataframe."]).
Proof. vm_compute. reflexivity. Qed.


(* ===================================================================== *)
(** * Part III: further properties of the code                            *)
(* ===================================================================== *)

(** ** Track ids and spectrogram paths *)

Section PathProperties.
Context `{FileSystem}.
Import PosixPath.

Lemma rfind_from_app c (s1 s2 : str) (i last : Z) :
  rfind_from c (s1 ++ s2) i last
  = rfind_from c s2 (i + Z.of_nat (length s1)) (rfind_from c s1 i last).
Proof.
  revert i last. induction s1 as [|x s1 IH]; intros i last; simpl.
  - f_equal. lia.
  - rewrite IH. f_equal. lia.
Qed.

Lemma rfind_from_absent c (s : str) (i last : Z) :
  c ∉ s → rfind_from c s i last = last.
Proof.
  revert i last. induction s as [|x s IH]; intros i last; [done|].
  rewrite not_elem_of_cons. intros [Hne Hnot]. simpl.
  rewrite decide_False by done. by apply IH.
Qed.

Lemma basename_plain (name_ : str) : sep ∉ name_ → basename name_ = name_.
Proof.
  intros Hnot. unfold basename, rfind. rewrite rfind_from_absent by done.
  simpl. by rewrite slice_from, drop_0 by lia.
Qed.

Lemma basename_in_directory (dir name_ : str) :
  sep ∉ name_ → basename (dir ++ sep :: name_) = name_.
Proof.
  intros Hnot. unfold basename, rfind.
  rewrite rfind_from_app. cbn [rfind_from].
  destruct (decide (sep = sep)); [|done].
  rewrite rfind_from_absent by done.
  rewrite slice_from by lia.
  replace (Z.to_nat (0 + Z.of_nat (length dir) + 1)) with (S (length dir)) by lia.
  change (dir ++ sep :: name_) with (dir ++ [sep] ++ name_).
  rewrite app_assoc. apply drop_app_length'. rewrite length_app. simpl. lia.
Qed.

(** X1: a path that [mp3_to_mel_path] returns exists and names a file
    directly inside [melspec_dir]: it is [melspec_dir], a slash unless the
    directory is empty or already ends in one, and a file name without a
    slash that ends in ".npz". *)
Theorem mel_path_directly_in_melspec_dir (mp3_path melspec_dir q : str) :
  mp3_to_mel_path mp3_path melspec_dir = Ok q →
  path_exists q = true ∧
  ∃ file, (sep ∉ file) ∧ lit ".npz" `suffix_of` file ∧
          q = melspec_dir
                ++ (if bool_decide (melspec_dir = []) || endswith melspec_dir sep
                    then [] else [sep])
                ++ file.
Proof.
  unfold mp3_to_mel_path.
  destruct (path_exists _) eqn:Hexists; [|discriminate]. intros [= <-].
  split; [done|]. exists (id_from_path mp3_path ++ lit ".npz"). split_and!.
  - rewrite elem_of_app. intros [Hin|Hin].
    + by apply (id_from_path_no_sep mp3_path).
    + by apply (bool_decide_pack _) in Hin.
  - by apply suffix_app_r.
  - rewrite join_relative by apply npz_name_relative.
    by destruct (bool_decide _ || _).
Qed.

(** X2: the track id looks at the file name only, and not at what its last
    four characters are: a file [stem ++ ext] with a four-character [ext]
    has the id [stem] in whatever directory it lies, so files of the same
    stem in different directories, or with different extensions, are mapped
    to the same spectrogram path. *)
Theorem id_from_path_same_stem (dir dir' stem ext ext' melspec_dir : str) :
  sep ∉ stem → sep ∉ ext → sep ∉ ext' →
  length ext = 4%nat → length ext' = 4%nat →
  id_from_path (stem ++ ext) = stem ∧
  id_from_path (dir ++ sep :: stem ++ ext) = stem ∧
  mp3_to_mel_path (dir ++ sep :: stem ++ ext) melspec_dir
    = mp3_to_mel_path (dir' ++ sep :: stem ++ ext') melspec_dir.
Proof.
  intros Hstem Hext Hext' Hlen Hlen'.
  assert (Hid : ∀ d e, sep ∉ e → length e = 4%nat →
                       id_from_path (d ++ sep :: stem ++ e) = stem).
  { intros d e He Hle. rewrite id_from_path_take, basename_in_directory.
    - rewrite length_app, Hle.
      replace (length stem + 4 - 4)%nat with (length stem) by lia.
      apply take_app_length.
    - rewrite elem_of_app. tauto. }
  split_and!.
  - rewrite id_from_path_take, basename_plain by (rewrite elem_of_app; tauto).
    rewrite length_app, Hlen.
    replace (length stem + 4 - 4)%nat with (length stem) by lia.
    apply take_app_length.
  - by apply Hid.
  - unfold mp3_to_mel_path. by rewrite !Hid.
Qed.

(** X3: a file name of at most four characters has the empty track id, so
    [mp3_to_mel_path] then looks for the file ".npz" in [melspec_dir]. *)
Theorem id_from_path_short_name (mp3_path melspec_dir : str) :
  (length (basename mp3_path) ≤ 4)%nat →
  id_from_path mp3_path = [] ∧
  (path_exists (join melspec_dir (lit ".npz")) = true →
   mp3_to_mel_path mp3_path melspec_dir = Ok (join melspec_dir (lit ".npz"))) ∧
  (path_exists (join melspec_dir (lit ".npz")) = false →
   ∃ msg, mp3_to_mel_path mp3_path melspec_dir = Raise (FileNotFoundError msg)).
Proof.
  intros Hshort.
  assert (Hid : id_from_path mp3_path = []).
  { rewrite id_from_path_take.
    replace (length (basename mp3_path) - 4)%nat with 0%nat by lia. done. }
  unfold mp3_to_mel_path. rewrite Hid. simpl.
  split_and!; [done | by intros -> | intros ->; eauto].
Qed.

End PathProperties.

Lemma mel_path_directly_in_melspec_dir_witness :
  ∃ file, (PosixPath.sep ∉ file) ∧
          lit "mel/000002.npz" = lit "mel" ++ [PosixPath.sep] ++ file.
Proof.
  destruct (@mel_path_directly_in_melspec_dir (disk [lit "mel/000002.npz"])
              (lit "fma_small/000/000002.mp3") (lit "mel") (lit "mel/000002.npz"))
    as (_ & file & Hfile & _ & Hq).
  - vm_compute. reflexivity.
  - exists file. split; [exact Hfile | exact Hq].
Defined.

Lemma id_from_path_same_stem_witness :
  id_from_path (lit "fma_small/000/000002.mp3") = lit "000002" ∧
  @mp3_to_mel_path (disk []) (lit "fma_small/000/000002.mp3") (lit "mel")
  = @mp3_to_mel_path (disk []) (lit "other/000002.wav") (lit "mel").
Proof.
  destruct (@id_from_path_same_stem (disk []) (lit "fma_small/000") (lit "other")
              (lit "000002") (lit ".mp3") (lit ".wav") (lit "mel"))
    as (_ & Hid & Hsame);
    [by_computation | by_computation | by_computation
    | reflexivity | reflexivity |].
  split; [exact Hid | exact Hsame].
Defined.

Lemma id_from_path_short_name_witness :
  id_from_path (lit "fma_small/.mp3") = [] ∧
  @mp3_to_mel_path (disk [lit "mel/.npz"]) (lit "fma_small/.mp3") (lit "mel")
  = Ok (lit "mel/.npz").
Proof.
  destruct (@id_from_path_short_name (disk [lit "mel/.npz"])
              (lit "fma_small/.mp3") (lit "mel"))
    as (Hid & Hok & _).
  - vm_compute. lia.
  - split; [exact Hid|]. apply Hok. vm_compute. reflexivity.
Defined.

(** ** Batches of the generator *)

Section BatchProperties.
Context `{Librosa}.
Import Batch_generator.

Lemma slice_length_eq {A B : Type} (l : list A) (k : list B) (start stop : option Z) :
  length l = length k → length (slice l start stop) = length (slice k start stop).
Proof.
  intros Hlen. unfold slice. rewrite !length_take, !length_drop.
  by rewrite Hlen.
Qed.

Lemma stack_melspecs_Ok_inv (self : Batch_generator) (filepath_list : list cell)
      (stacked : ndarray3 float) :
  _stack_melspecs self filepath_list = Ok stacked →
  filepath_list ≠ [] ∧
  ∃ sources melspecs,
    mapM (λ file, load file (sr self) (sr self)) filepath_list = Ok sources ∧
    mapM (λ src, melspectrogram src (sr self)) sources = Ok melspecs.
Proof.
  intros Hstack. split.
  - intros ->. discriminate.
  - unfold _stack_melspecs in Hstack.
    destruct (mapM _ filepath_list) as [sources|]; [|discriminate].
    simpl in Hstack.
    destruct (mapM _ sources) as [melspecs|] eqn:Hmelspecs; [|discriminate].
    by exists sources, melspecs.
Qed.

(** X4: with a batch size of at least 1, [__getitem__] at an index from
    [__len__()] on finds no track and raises [ValueError], whatever the
    files are. *)
Theorem getitem_past_last_batch_raises
        (self : Batch_generator) (idx n_batches : Z) :
  1 ≤ batch_size self → __len__ self = Ok n_batches → n_batches ≤ idx →
  batch_x self idx = [] ∧ __getitem__ self idx = Raise ValueError.
Proof.
  intros Hb Hlen Hidx.
  destruct (len_ceiling self Hb (len_no_overflow _ _ Hlen)) as [Hlen' Hceil].
  simpl in *.
  rewrite Hlen in Hlen'. injection Hlen' as ->.
  set (L := (_ + _ - 1) `div` _) in *.
  assert (0 ≤ L) by (apply Z.div_pos; lia).
  assert (Hx : batch_x self idx = []).
  { unfold batch_x. rewrite slice_batch by lia.
    rewrite drop_ge by nia. apply take_nil. }
  split; [done|]. unfold __getitem__. by rewrite Hx.
Qed.

(** X5: the index -1 does not address the last batch: for every generator
    the slice it takes is empty and [__getitem__(-1)] raises [ValueError]. *)
Theorem getitem_minus_one_raises (self : Batch_generator) :
  batch_x self (-1) = [] ∧ __getitem__ self (-1) = Raise ValueError.
Proof.
  assert (Hx : batch_x self (-1) = []).
  { unfold batch_x, slice, adjust_index. simpl.
    replace (Z.to_nat _) with 0%nat; [done|].
    destruct (Z.ltb_spec (-1 * batch_size self) 0); lia. }
  split; [done|]. unfold __getitem__. by rewrite Hx.
Qed.

(** X6: with a batch size [b] of at least 1, every batch but the last holds
    exactly [b] tracks, and the last one holds the remaining ones, at least
    one and at most [b]. *)
Theorem batch_sizes (self : Batch_generator) (idx n_batches : Z) :
  1 ≤ batch_size self → __len__ self = Ok n_batches → 0 ≤ idx < n_batches →
  let n := Z.of_nat (length (mp3_paths self)) in
  let b := batch_size self in
  Z.of_nat (length (batch_x self idx))
  = (if decide (idx < n_batches - 1) then b else n - (n_batches - 1) * b) ∧
  1 ≤ Z.of_nat (length (batch_x self idx)) ≤ b.
Proof.
  intros Hb Hlen Hidx n b.
  destruct (len_ceiling self Hb (len_no_overflow _ _ Hlen)) as [Hlen' Hceil].
  simpl in *.
  rewrite Hlen in Hlen'. injection Hlen' as ->.
  set (L := (_ + _ - 1) `div` _) in *.
  unfold batch_x. rewrite slice_batch by lia.
  rewrite length_take, length_drop. fold n b in Hceil |- *.
  destruct (decide _); nia.
Qed.

Lemma select_OneColumn {L : Type} `{EqDecision L}
      (missing : exn) (df : DataFrame L) (key : L) (s : Series) :
  select missing df key = Ok (OneColumn s) →
  (key, s_values s) ∈ columns df ∧ s_index s = index df.
Proof.
  unfold select. destruct (labelled key df) as [|c [|c' cs]] eqn:Hsel;
    [discriminate | | discriminate].
  intros [= <-]. simpl. split; [|done].
  assert (Hc : c ∈ labelled key df) by (rewrite Hsel; left).
  apply list_elem_of_filter in Hc as [Hkey Hc]. simpl in Hkey.
  destruct c as [k v]. simpl in *. by subst.
Qed.

Lemma loc_columns_index {L : Type} `{EqDecision L}
      (df df' : DataFrame L) (keys : list (option L)) :
  loc_columns df keys = Ok df' → index df' = index df.
Proof.
  unfold loc_columns. destruct (mapM _ keys); [|discriminate].
  simpl. by intros [= <-].
Qed.

Lemma to_numpy_wf {L : Type} (df : DataFrame L) : wf2 (to_numpy df).
Proof.
  split; simpl.
  - by rewrite length_fmap, length_seq.
  - apply Forall_fmap, Forall_forall. intros r _. simpl.
    by rewrite length_fmap.
Qed.

Lemma init_Ok_inv
      (meta_df : DataFrame scalar) (b sr_ d : Z) (g : Batch_generator) :
  __init__ meta_df b sr_ d = Ok g →
  ∃ encoded : DataFrame scalar,
    (SStr (lit "mp3_path"), mp3_paths g) ∈ columns meta_df ∧
    labels g = to_numpy encoded ∧ index encoded = index meta_df ∧
    batch_size g = b ∧ sr g = sr_ ∧ duration g = d.
Proof.
  unfold __init__.
  destruct (getitem meta_df _) as [[paths|]|] eqn:Hpaths; try discriminate.
  simpl.
  destruct (getattr meta_df _) as [[genre|]|]; try discriminate. simpl.
  destruct (loc_columns meta_df _) as [encoded|] eqn:Henc; [|discriminate].
  simpl. intros [= <-]. simpl. exists encoded.
  apply select_OneColumn in Hpaths as [Hin _].
  split_and!; try done. by eapply loc_columns_index.
Qed.

(** X7: a generator built from a frame in which every column has one entry
    per row keeps one label row per path, in a rectangular label array, and
    stores the batch size, sample rate and duration it was given. *)
Theorem init_one_label_row_per_path
        (meta_df : DataFrame scalar) (b sr_ d : Z) (g : Batch_generator) :
  wf meta_df → __init__ meta_df b sr_ d = Ok g →
  length (cells2 (labels g)) = length (mp3_paths g) ∧
  length (mp3_paths g) = length (row_labels (index meta_df)) ∧
  wf2 (labels g) ∧
  batch_size g = b ∧ sr g = sr_ ∧ duration g = d.
Proof.
  intros Hwf Hinit.
  destruct (init_Ok_inv _ _ _ _ _ Hinit)
    as (encoded & Hin & Hlabels & Hindex & Hb & Hsr & Hd).
  unfold wf in Hwf. rewrite Forall_forall in Hwf.
  pose proof (Hwf _ Hin) as Hlen. simpl in Hlen.
  rewrite Hlabels. split_and!; try done.
  - simpl. by rewrite length_fmap, length_seq, Hindex.
  - apply to_numpy_wf.
Qed.

(** X8: for such a generator a batch that [__getitem__] returns, at any
    index, has as many spectrograms as label rows, one per path of the
    batch, and its label array is rectangular. *)
Theorem getitem_samples_match_labels
        (meta_df : DataFrame scalar) (b sr_ d idx : Z) (g : Batch_generator)
        (x : ndarray3 float) (y : ndarray2 cell) :
  wf meta_df → __init__ meta_df b sr_ d = Ok g →
  __getitem__ g idx = Ok (x, y) →
  (shape3 x).1.1 = length (batch_x g idx) ∧
  (shape2 y).1 = length (batch_x g idx) ∧
  length (cells3 x) = length (cells2 y) ∧
  wf2 y.
Proof.
  intros Hwf Hinit Hget.
  destruct (init_Ok_inv _ _ _ _ _ Hinit)
    as (encoded & Hin & Hlabels & Hindex & _).
  pose proof (to_numpy_wf encoded) as [Hlen Hcols]. rewrite <- Hlabels in *.
  assert (Hrows : length (cells2 (labels g)) = length (mp3_paths g)).
  { unfold wf in Hwf. rewrite Forall_forall in Hwf.
    pose proof (Hwf _ Hin) as Hlen_paths. simpl in Hlen_paths.
    rewrite Hlabels. simpl. by rewrite length_fmap, length_seq, Hindex. }
  unfold __getitem__ in Hget.
  destruct (_stack_melspecs g (batch_x g idx)) as [stacked|] eqn:Hstack;
    [|discriminate].
  simpl in Hget. injection Hget as <- <-.
  destruct (stack_melspecs_Ok_inv _ _ _ Hstack) as (Hne & sources & melspecs & Hs & Hm).
  rewrite (stack_melspecs_padded g _ _ _ Hne Hs Hm) in Hstack.
  injection Hstack as <-. simpl.
  assert (Hy : length (slice (cells2 (labels g))
                         (Some (idx * batch_size g))
                         (Some ((idx + 1) * batch_size g)))
               = length (batch_x g idx)).
  { unfold batch_x. by apply slice_length_eq. }
  split_and!; try done.
  - rewrite length_fmap, Hy.
    rewrite (mapM_Ok_length _ _ _ Hm), (mapM_Ok_length _ _ _ Hs). done.
  - unfold batch_y, rows_slice. split; simpl; [done|].
    unfold slice. by apply Forall_take, Forall_drop.
Qed.

Lemma pad_rows_id {V : Type} (z : V) (r c : nat) (rows : list (list V)) :
  wf_rows r c rows → pad_rows z r c rows = rows.
Proof.
  intros [Hlen Hrows]. unfold pad_rows. rewrite Hlen, Nat.sub_diag. simpl.
  rewrite app_nil_r. rewrite <- (list_fmap_id rows) at 2.
  apply Forall_fmap_ext. eapply Forall_impl; [exact Hrows|].
  intros row Hrow. simpl in *. rewrite Hrow, Nat.sub_diag. simpl.
  apply app_nil_r.
Qed.

Lemma max_list_all (x : nat) (l : list nat) :
  l ≠ [] → Forall (λ y, y = x) l → max_list l = x.
Proof.
  intros Hne Hall. induction Hall as [|y l -> Hall IH]; [done|].
  simpl. destruct l as [|y' l]; [simpl; lia|].
  rewrite IH by done. lia.
Qed.

(** X9: when all spectrograms of a batch have the same shape, nothing is
    padded: [_stack_melspecs] returns exactly the spectrograms, one after
    the other, in an array of that shape. *)
Theorem stack_melspecs_same_shape
        (self : Batch_generator) (filepath_list : list cell)
        (sources : list audio) (melspecs : list (ndarray2 float)) (r c : nat) :
  filepath_list ≠ [] →
  mapM (λ file, load file (sr self) (sr self)) filepath_list = Ok sources →
  mapM (λ src, melspectrogram src (sr self)) sources = Ok melspecs →
  Forall (λ m, shape2 m = (r, c)) melspecs →
  _stack_melspecs self filepath_list
  = Ok {| shape3 := (length filepath_list, r, c);
          cells3 := cells2 <$> melspecs |}.
Proof.
  intros Hne Hs Hm Hshape.
  rewrite (stack_melspecs_padded self _ _ _ Hne Hs Hm).
  pose proof (mapM_Ok_length _ _ _ Hs) as Hlen1.
  pose proof (mapM_Ok_length _ _ _ Hm) as Hlen2.
  assert (Hne' : melspecs ≠ []).
  { intros ->. destruct filepath_list; [done | simpl in *; lia]. }
  rewrite (max_list_all r), (max_list_all c).
  - do 2 f_equal. apply Forall_fmap_ext, Forall_forall. intros m Hin.
    apply pad_rows_id.
    apply list_elem_of_lookup in Hin as [i Hi].
    destruct (mapM_Ok_lookup _ _ _ _ _ Hm Hi) as (src & _ & Hsrc).
    pose proof (melspectrogram_wf _ _ _ Hsrc) as Hwf. unfold wf2 in Hwf.
    rewrite Forall_forall in Hshape.
    rewrite (Hshape m) in Hwf; [done|]. by eapply list_elem_of_lookup_2.
  - by destruct melspecs.
  - apply Forall_fmap. eapply Forall_impl; [exact Hshape|].
    intros m Hshape_m. simpl. by rewrite Hshape_m.
  - by destruct melspecs.
  - apply Forall_fmap. eapply Forall_impl; [exact Hshape|].
    intros m Hshape_m. simpl. by rewrite Hshape_m.
Qed.

End BatchProperties.

Lemma getitem_past_last_batch_raises_witness :
  @Batch_generator.__getitem__ _ sample_librosa (sample_generator 30) 2
  = Raise ValueError.
Proof.
  apply (@getitem_past_last_batch_raises _ sample_librosa (sample_generator 30) 2 2);
    [simpl; lia | reflexivity | lia].
Defined.

Lemma batch_sizes_witness :
  Z.of_nat (length (Batch_generator.batch_x (sample_generator 30) 1)) = 1.
Proof.
  destruct (batch_sizes (sample_generator 30) 1 2) as [Hsize _];
    [simpl; lia | reflexivity | lia |].
  exact Hsize.
Defined.

Lemma init_one_label_row_per_path_witness :
  ∃ g, Batch_generator.__init__
         (with_dummies (H := sample_pandas []) sample_metadata
            [Some (SStr (lit "Rock")); Some (SStr (lit "Folk"))]) 2 22050 30 = Ok g ∧
       length (cells2 (labels g)) = length (mp3_paths g).
Proof.
  eexists. split; [vm_compute; reflexivity|].
  eapply (init_one_label_row_per_path
            (with_dummies (H := sample_pandas []) sample_metadata
               [Some (SStr (lit "Rock")); Some (SStr (lit "Folk"))])
            2 22050 30).
  - unfold wf. by_computation.
  - vm_compute. reflexivity.
Defined.

Lemma getitem_samples_match_labels_witness :
  ∃ g x y,
    Batch_generator.__init__
      (with_dummies (H := sample_pandas []) sample_metadata
         [Some (SStr (lit "Rock")); Some (SStr (lit "Folk"))]) 2 22050 30 = Ok g ∧
    @Batch_generator.__getitem__ _ sample_librosa g 0 = Ok (x, y) ∧
    length (cells3 x) = length (cells2 y).
Proof.
  do 3 eexists. split; [vm_compute; reflexivity|].
  split; [vm_compute; reflexivity|].
  eapply (@getitem_samples_match_labels _ sample_librosa
            (with_dummies (H := sample_pandas []) sample_metadata
               [Some (SStr (lit "Rock")); Some (SStr (lit "Folk"))])
            2 22050 30 0).
  - unfold wf. by_computation.
  - vm_compute. reflexivity.
  - vm_compute. reflexivity.
Defined.

Lemma stack_melspecs_same_shape_witness :
  @Batch_generator._stack_melspecs _ sample_librosa (sample_generator 30)
    [Some (SStr (lit "a.mp3")); Some (SStr (lit "c.mp3"))]
  = Ok {| shape3 := (2, 2, 5)%nat;
          cells3 := [replicate 2 (replicate 5 1); replicate 2 (replicate 5 1)] |}.
Proof.
  apply (@stack_melspecs_same_shape _ sample_librosa (sample_generator 30)
           [Some (SStr (lit "a.mp3")); Some (SStr (lit "c.mp3"))]
           [5; 5]%nat
           [ {| shape2 := (2, 5)%nat; cells2 := replicate 2 (replicate 5 1) |};
             {| shape2 := (2, 5)%nat; cells2 := replicate 2 (replicate 5 1) |} ]
           2%nat 5%nat).
  - discriminate.
  - reflexivity.
  - reflexivity.
  - repeat constructor.
Defined.

(** ** Labels of the generator *)

Section LabelProperties.
Context `{Pandas}.
Import Batch_generator.
Variables (df : DataFrame scalar) (genres paths : list cell).
Hypothesis Hlabels : NoDup (columns df).*1.
Hypothesis Hgenre : (SStr (lit "genre"), genres) ∈ columns df.
Hypothesis Hpaths : (SStr (lit "mp3_path"), paths) ∈ columns df.

(** X10: a generator cannot be built from a frame that lacks a column for
    one of its genres: when some row has no genre (NaN), or a genre that
    labels no column, as in a metadata frame that was not passed through
    [attach_onehot_encoding], [__init__] raises [KeyError]. *)
Theorem init_raises_without_genre_column (b sr_ d : Z) (c : cell) :
  c ∈ genres →
  match c with
  | None => True
  | Some v => v ∉ (columns df).*1
  end →
  __init__ df b sr_ d = Raise KeyError.
Proof.
  intros Hc Hmissing. unfold __init__, getitem, getattr, select, labelled.
  rewrite (filter_label_unique _ _ _ Hlabels Hpaths). simpl.
  rewrite (filter_label_unique _ _ _ Hlabels Hgenre). simpl.
  unfold loc_columns.
  rewrite (mapM_Raise _ KeyError _ c); [done | | |].
  - exact (proj2 (elem_of_unique _ _) Hc).
  - destruct c as [v|]; [|done].
    unfold labelled. by rewrite (filter_label_absent _ _ Hmissing).
  - intros [k|] e _; [|by intros [= <-]].
    destruct (labelled k _); [by intros [= <-] | discriminate].
Qed.

Hypothesis Hwf : wf df.
Hypothesis Hfresh : ∀ v, Some v ∈ genres → v ∉ (columns df).*1.
Hypothesis Hnan : None ∉ genres.

Lemma encoded_row (r : nat) (x : scalar) :
  genres !! r = Some (Some x) →
  cells2 (to_numpy {| index := index df;
                      columns := (λ v, (v, indicator genres v))
                                   <$> omap id (unique genres) |}) !! r
  = Some ((λ v, Some (SInt (if decide (Some x = Some v) then 1 else 0)))
            <$> omap id (unique genres)).
Proof.
  intros Hx. simpl.
  assert (Hlen : length genres = length (row_labels (index df))).
  { pose proof Hwf as Hall. unfold wf in Hall. rewrite Forall_forall in Hall.
    exact (Hall _ Hgenre). }
  rewrite list_lookup_fmap.
  rewrite (proj2 (lookup_seq 0 _ r r)); [|split; [done|]].
  - simpl. f_equal. rewrite <- list_fmap_compose.
    apply list_fmap_ext. intros i v _. simpl. unfold indicator.
    by rewrite list_lookup_fmap, Hx.
  - rewrite <- Hlen. by eapply lookup_lt_Some.
Qed.

Lemma argmax_from_top (bi i : nat) (row : list Z) :
  Forall (λ z, z ≤ 1) row → argmax_from 1 bi i row = bi.
Proof.
  intros Hall. revert i. induction Hall as [|z row Hz _ IH]; intros i; [done|].
  simpl. destruct (Z.ltb_spec 1 z); [lia|]. apply IH.
Qed.

Lemma argmax_from_indicator (levels_ : list scalar) (x : scalar) (bi i : nat) :
  x ∈ levels_ →
  ∃ j, argmax_from 0 bi i
         ((λ v, if decide (Some x = Some v) then 1 else 0) <$> levels_)
       = (i + j)%nat ∧
       levels_ !! j = Some x.
Proof.
  revert bi i. induction levels_ as [|u U IH]; intros bi i Hin.
  { by apply elem_of_nil in Hin. }
  rewrite fmap_cons. simpl.
  destruct (decide (Some x = Some u)) as [[= ->]|Hne].
  - exists 0%nat. split; [|done]. simpl.
    rewrite argmax_from_top; [lia|].
    apply Forall_fmap, Forall_forall. intros v _. simpl.
    destruct (decide _); lia.
  - simpl. apply elem_of_cons in Hin as [->|Hin]; [done|].
    destruct (IH bi (S i) Hin) as (j & Hj & Hlookup).
    exists (S j). split; [|done]. rewrite Hj. lia.
Qed.

Lemma argmax_indicator (levels_ : list scalar) (x : scalar) :
  x ∈ levels_ →
  ∃ k, argmax ((λ v, if decide (Some x = Some v) then 1 else 0) <$> levels_)
       = Ok k ∧
       levels_ !! k = Some x.
Proof.
  destruct levels_ as [|u U]; [by intros ?%elem_of_nil|].
  intros Hin. rewrite fmap_cons. simpl.
  destruct (decide (Some x = Some u)) as [[= ->]|Hne].
  - exists 0%nat. split; [|done]. f_equal. apply argmax_from_top.
    apply Forall_fmap, Forall_forall. intros v _. simpl.
    destruct (decide _); lia.
  - apply elem_of_cons in Hin as [->|Hin]; [done|].
    destruct (argmax_from_indicator U x 0 1 Hin) as (j & Hj & Hlookup).
    exists (S j). split; [|done]. by rewrite Hj.
Qed.

Lemma int_row_indicator (levels_ : list scalar) (gc : cell) :
  int_row ((λ v, Some (SInt (if decide (gc = Some v) then 1 else 0)))
             <$> levels_)
  = Some ((λ v, if decide (gc = Some v) then 1 else 0) <$> levels_).
Proof.
  unfold int_row. induction levels_ as [|u U IH]; [done|].
  rewrite !fmap_cons. simpl. simpl in IH. by rewrite IH.
Qed.

Lemma mapM_fmap_result {A B C : Type} (f : B → result C) (h : A → B) (l : list A) :
  mapM f (h <$> l) = mapM (f ∘ h) l.
Proof.
  induction l as [|x l IH]; [done|]. rewrite fmap_cons.
  change (mapM f (h x :: (h <$> l)))
    with (y ← f (h x); k ← mapM f (h <$> l); mret (y :: k)).
  by rewrite IH.
Qed.

Lemma mapM_Ok_exists {A B : Type} (f : A → result B) (P : A → B → Prop)
      (l : list A) :
  (∀ x, x ∈ l → ∃ y, f x = Ok y ∧ P x y) →
  ∃ ys, mapM f l = Ok ys ∧ Forall2 P l ys.
Proof.
  induction l as [|x l IH]; intros Hall.
  - exists []. split; [done | constructor].
  - destruct (Hall x) as (y & Hy & HP); [left|].
    destruct IH as (ys & Hys & HPs); [intros x' Hx'; apply Hall; by right|].
    exists (y :: ys). split; [|by constructor].
    simpl. rewrite Hy. simpl. by rewrite Hys.
Qed.

Lemma mapM_int_rows (levels_ : list scalar) (cells_ : list cell) :
  mapM int_row
    ((λ gc, (λ v, Some (SInt (if decide (gc = Some v) then 1 else 0)))
              <$> levels_) <$> cells_)
  = Some ((λ gc, (λ v, if decide (gc = Some v) then 1 else 0) <$> levels_)
            <$> cells_).
Proof.
  induction cells_ as [|gc l IH]; [done|].
  rewrite !fmap_cons. cbn [mapM]. rewrite int_row_indicator. simpl.
  simpl in IH. by rewrite IH.
Qed.

Lemma encoded_rows :
  cells2 (to_numpy {| index := index df;
                      columns := (λ v, (v, indicator genres v))
                                   <$> omap id (unique genres) |})
  = (λ gc, (λ v, Some (SInt (if decide (gc = Some v) then 1 else 0)))
             <$> omap id (unique genres)) <$> genres.
Proof.
  assert (Hlen : length genres = length (row_labels (index df))).
  { pose proof Hwf as Hall. unfold wf in Hall. rewrite Forall_forall in Hall.
    exact (Hall _ Hgenre). }
  apply list_eq. intros r.
  destruct (genres !! r) as [[x|]|] eqn:Hx.
  - rewrite (encoded_row r x Hx), list_lookup_fmap, Hx. done.
  - destruct Hnan. by eapply list_elem_of_lookup_2.
  - rewrite list_lookup_fmap, Hx. simpl.
    apply lookup_ge_None_2. simpl. rewrite length_fmap, length_seq, <- Hlen.
    by apply lookup_ge_None.
Qed.

(** X11: on a frame encoded by [attach_onehot_encoding] in which no genre
    is missing and none is spelled like a column label, the generator is
    built, its label array has one column per distinct genre, in the order
    in which the genres first appear in the frame, and the row of a track
    has its one 1 in the column of the track's genre. *)
Theorem label_columns_by_first_appearance (c : cell) (b sr_ d : Z) :
  ∃ g,
    (attach_onehot_encoding df c ≫= λ encoded, __init__ encoded b sr_ d) = Ok g ∧
    mp3_paths g = paths ∧
    shape2 (labels g) = (length (row_labels (index df)),
                         length (omap id (unique genres))) ∧
    ∀ r x, genres !! r = Some (Some x) →
      ∃ row, cells2 (labels g) !! r = Some row ∧
             one_hot row ∧
             ∀ k v, omap id (unique genres) !! k = Some v →
                    row !! k = Some (Some (SInt (if decide (x = v) then 1 else 0))).
Proof.
  rewrite (attach_with_dummies df genres Hlabels Hgenre). simpl.
  rewrite (init_with_dummies df genres paths Hlabels Hgenre Hpaths Hfresh) by done.
  eexists. split; [reflexivity|]. simpl. split_and!; [done | |].
  - by rewrite length_fmap.
  - intros r x Hx. pose proof (encoded_row r x Hx) as Hrow. simpl in Hrow.
    eexists. split; [exact Hrow|]. split.
    + apply one_hot_indicator_row.
      * apply NoDup_omap_id, NoDup_unique.
      * apply list_elem_of_omap. exists (Some x). split; [|done].
        apply elem_of_unique. by eapply list_elem_of_lookup_2.
    + intros k v Hv. rewrite list_lookup_fmap, Hv. simpl. do 2 f_equal.
      destruct (decide (Some x = Some v)) as [[= ->]|Hne].
      * by rewrite decide_True.
      * rewrite decide_False; [done | congruence].
Qed.

(** X12: the classes that the evaluation helpers read off such a label
    array ([np.argmax(y_test, axis=1)]) decode the encoding: the class of a
    track is the rank of its genre among the distinct genres of the frame
    in order of first appearance. *)
Theorem classes_decode_genres (c : cell) (b sr_ d : Z) :
  genres ≠ [] →
  ∃ g (y_test : ndarray2 Z) (ks : list nat),
    (attach_onehot_encoding df c ≫= λ encoded, __init__ encoded b sr_ d) = Ok g ∧
    shape2 y_test = shape2 (labels g) ∧
    mapM int_row (cells2 (labels g)) = Some (cells2 y_test) ∧
    classes y_test = Ok ks ∧
    length ks = length genres ∧
    ∀ r x, genres !! r = Some (Some x) →
      ∃ k, ks !! r = Some k ∧ omap id (unique genres) !! k = Some x.
Proof.
  intros Hne.
  rewrite (attach_with_dummies df genres Hlabels Hgenre). simpl.
  rewrite (init_with_dummies df genres paths Hlabels Hgenre Hpaths Hfresh) by done.
  set (U := omap id (unique genres)).
  assert (HU : ∀ x, Some x ∈ genres → x ∈ U).
  { intros x Hx. apply list_elem_of_omap. exists (Some x). split; [|done].
    by apply elem_of_unique. }
  destruct (mapM_Ok_exists
              (argmax ∘ (λ gc, (λ v, if decide (gc = Some v) then 1 else 0) <$> U))
              (λ gc k, ∀ x, gc = Some x → U !! k = Some x) genres)
    as (ks & Hks & Hall).
  { intros [x|] Hin; [|by destruct Hnan].
    destruct (argmax_indicator U x (HU x Hin)) as (k & Hk & Hlookup).
    exists k. split; [exact Hk|]. by intros ? [= <-]. }
  eexists.
  exists {| shape2 := (length (row_labels (index df)), length U);
            cells2 := (λ gc, (λ v, if decide (gc = Some v) then 1 else 0) <$> U)
                        <$> genres |}.
  exists ks. split; [reflexivity|]. split_and!.
  - simpl. by rewrite length_fmap.
  - cbn [labels cells2]. unfold U. rewrite encoded_rows. apply mapM_int_rows.
  - unfold classes. cbn [shape2 cells2 snd].
    destruct genres as [|[x|] l] eqn:Hgenres; [done| |].
    + rewrite decide_False.
      * rewrite <- Hgenres, mapM_fmap_result. by rewrite Hgenres.
      * intros Hzero%length_zero_iff_nil.
        pose proof (HU x ltac:(left)) as Hin. rewrite Hzero in Hin.
        by apply elem_of_nil in Hin.
    + destruct Hnan. left.
  - symmetry. by eapply Forall2_length.
  - intros r x Hx.
    destruct (Forall2_lookup_l _ _ _ _ _ Hall Hx) as (k & Hk & Hdec).
    exists k. split; [done|]. by apply Hdec.
Qed.

End LabelProperties.

(** The genres of the sample frame label none of its columns. *)
Ltac fresh_by_computation :=
  let v := fresh "v" in
  let Hv := fresh "Hv" in
  intros v Hv;
  repeat (apply elem_of_cons in Hv as [[= ->]|Hv]; [by_computation|]);
  by apply elem_of_nil in Hv.

Lemma init_raises_without_genre_column_witness :
  Batch_generator.__init__ sample_metadata 2 22050 30 = Raise KeyError.
Proof.
  apply (init_raises_without_genre_column sample_metadata
           [Some (SStr (lit "Rock")); Some (SStr (lit "Folk"))]
           [Some (SStr (lit "a.mp3")); Some (SStr (lit "bb.mp3"))])
    with (c := Some (SStr (lit "Rock"))); by_computation.
Defined.

Lemma label_columns_by_first_appearance_witness :
  ∃ g,
    (@attach_onehot_encoding (sample_pandas []) sample_metadata None
       ≫= λ encoded, Batch_generator.__init__ encoded 2 22050 30) = Ok g ∧
    shape2 (labels g) = (2, 2)%nat.
Proof.
  destruct (@label_columns_by_first_appearance (sample_pandas []) sample_metadata
              [Some (SStr (lit "Rock")); Some (SStr (lit "Folk"))]
              [Some (SStr (lit "a.mp3")); Some (SStr (lit "bb.mp3"))])
    with (c := @None scalar) (b := 2) (sr_ := 22050) (d := 30)
    as (g & Hg & _ & Hshape & _).
  - by_computation.
  - by_computation.
  - by_computation.
  - unfold wf. by_computation.
  - fresh_by_computation.
  - by_computation.
  - exists g. split; [exact Hg | exact Hshape].
Defined.

Lemma classes_decode_genres_witness :
  ∃ g (y_test : ndarray2 Z),
    (@attach_onehot_encoding (sample_pandas []) sample_metadata None
       ≫= λ encoded, Batch_generator.__init__ encoded 2 22050 30) = Ok g ∧
    mapM int_row (cells2 (labels g)) = Some (cells2 y_test) ∧
    ∃ ks, classes y_test = Ok ks ∧ length ks = 2%nat.
Proof.
  destruct (@classes_decode_genres (sample_pandas []) sample_metadata
              [Some (SStr (lit "Rock")); Some (SStr (lit "Folk"))]
              [Some (SStr (lit "a.mp3")); Some (SStr (lit "bb.mp3"))])
    with (c := @None scalar) (b := 2) (sr_ := 22050) (d := 30)
    as (g & y_test & ks & Hg & _ & Hints & Hks & Hlen & _).
  - by_computation.
  - by_computation.
  - by_computation.
  - unfold wf. by_computation.
  - fresh_by_computation.
  - by_computation.
  - discriminate.
  - exists g, y_test. split; [exact Hg|]. split; [exact Hints|].
    exists ks. split; [exact Hks | exact Hlen].
Defined.

(** ** The metadata frame *)

Section MetadataProperties.
Context `{Pandas}.
Local Open Scope nat_scope.

Lemma keep_rows_sublist {A : Type} (mask : list bool) (l : list A) :
  keep_rows mask l `sublist_of` l.
Proof.
  revert l. induction mask as [|b mask IH]; intros l.
  - apply sublist_nil_l.
  - destruct l as [|x l]; [by rewrite keep_rows_nil_r|].
    rewrite keep_rows_cons. destruct b.
    + by apply sublist_skip.
    + by apply sublist_cons.
Qed.


(** The table part of [read_metadata_file]: up to the renaming of the
    columns the call cannot fail once the two columns are there. *)
Lemma read_metadata_file_small_rows
      (path : str) (all_filepaths bad_filepaths : list str)
      (all_metadata : DataFrame (str * str)) (subset genre_top : list cell) :
  read_csv path = Ok all_metadata →
  ((lit "set", lit "subset"), subset) ∈ columns all_metadata →
  ((lit "track", lit "genre_top"), genre_top) ∈ columns all_metadata →
  let small := (λ c, bool_decide (c = Some (SStr (lit "small")))) <$> subset in
  let track_ids := keep_rows small (row_labels (index all_metadata)) in
  read_metadata_file path all_filepaths bad_filepaths
  = (df ← setitem {| index := RangeIndex (length track_ids);
                     columns := [(SStr (lit "track_id"), track_ids);
                                 (SStr (lit "genre"), keep_rows small genre_top)] |}
           (SStr (lit "mp3_path")) (Some ∘ SStr <$> all_filepaths);
     mp3_path ← getattr df (SStr (lit "mp3_path"));
     match mp3_path with
     | OneColumn s =>
         let bad := isin s (Some ∘ SStr <$> bad_filepaths) in
         if decide (mask_sum bad ≠ 0) then
           df ← drop_rows df (row_labels (index (loc_rows df bad)));
           Ok (df, [lit "Dropped "
                      ++ lit (NilZero.string_of_uint
                                (Nat.to_uint (length bad_filepaths)))
                      ++ lit " rows from the dataframe."])
         else Ok (df, [])
     | SeveralColumns _ => Raise ValueError
     end).
Proof.
  intros Hcsv Hsubset Hgenre small track_ids.
  pose proof (read_csv_labels _ _ Hcsv) as Hnd.
  unfold read_metadata_file. rewrite Hcsv. simpl.
  unfold getitem, select.
  unfold labelled at 1. rewrite (filter_label_unique _ _ _ Hnd Hsubset). simpl.
  unfold eq_mask. simpl. fold small.
  unfold loc_columns. simpl.
  rewrite labelled_loc_rows.
  unfold labelled at 1. rewrite (filter_label_unique _ _ _ Hnd Hgenre). simpl.
  fold track_ids.
  unfold reset_index. simpl.
  set (first_level := match name (index all_metadata) with
                      | Some n => n
                      | None => _
                      end).
  destruct (decide ((first_level, _) ∈ _)) as [Hin|_].
  { apply list_elem_of_singleton in Hin. injection Hin as _ Hin.
    vm_compute in Hin. discriminate. }
  reflexivity.
Qed.

(** The second half of [read_metadata_file], on a frame with one row per
    path: the rows with a bad path go, and the message is printed when
    there is one. *)
Lemma read_metadata_file_drop
      (ids gs : list cell) (all_filepaths bad_filepaths : list str) :
  let mp3 := Some ∘ SStr <$> all_filepaths in
  let bad := (λ c, bool_decide (c ∈ (Some ∘ SStr <$> bad_filepaths))) <$> mp3 in
  let good := negb <$> bad in
  let df := {| index := RangeIndex (length all_filepaths);
               columns := [(SStr (lit "track_id"), ids);
                           (SStr (lit "genre"), gs);
                           (SStr (lit "mp3_path"), mp3)] |} in
  length ids = length all_filepaths → length gs = length all_filepaths →
  (mp3_path ← getattr df (SStr (lit "mp3_path"));
   match mp3_path with
   | OneColumn s =>
       let bad := isin s (Some ∘ SStr <$> bad_filepaths) in
       if decide (mask_sum bad ≠ 0) then
         df ← drop_rows df (row_labels (index (loc_rows df bad)));
         Ok (df, [lit "Dropped "
                    ++ lit (NilZero.string_of_uint
                              (Nat.to_uint (length bad_filepaths)))
                    ++ lit " rows from the dataframe."])
       else Ok (df, [])
   | SeveralColumns _ => Raise ValueError
   end)
  = Ok ({| index :=
             {| name := None;
                row_labels :=
                  keep_rows good (row_labels (RangeIndex (length all_filepaths))) |};
           columns :=
             [(SStr (lit "track_id"), keep_rows good ids);
              (SStr (lit "genre"), keep_rows good gs);
              (SStr (lit "mp3_path"), keep_rows good mp3)] |},
        if decide (mask_sum bad ≠ 0)
        then [lit "Dropped "
                ++ lit (NilZero.string_of_uint (Nat.to_uint (length bad_filepaths)))
                ++ lit " rows from the dataframe."]
        else []).
Proof.
  intros mp3 bad good df Hids Hgs.
  assert (Hlen_mp3 : length mp3 = length all_filepaths).
  { unfold mp3. by rewrite length_fmap. }
  assert (Hlen_bad : length bad = length all_filepaths).
  { unfold bad. by rewrite length_fmap. }
  unfold df. simpl. unfold isin. simpl. fold mp3 bad.
  destruct (decide (mask_sum bad ≠ 0)) as [Hsome|Hnone].
  - unfold drop_rows. simpl.
    rewrite decide_True by apply keep_rows_subseteq.
    rewrite drop_mask; [done | |].
    + apply (NoDup_fmap_2_strong _), NoDup_seq.
      intros i j _ _ [= Hij]. lia.
    + rewrite length_fmap, length_seq. done.
  - apply dec_stable in Hnone. apply mask_sum_zero in Hnone.
    assert (Hall : Forall (λ b, b = true) good).
    { apply Forall_fmap. eapply Forall_impl; [exact Hnone|]. by intros b ->. }
    assert (Hlen_good : length good = length all_filepaths).
    { unfold good. by rewrite length_fmap. }
    rewrite !(keep_rows_true good)
      by (done || lia || (rewrite length_fmap, length_seq; lia)).
    done.
Qed.

Lemma read_metadata_file_closed_form
      (path : str) (all_filepaths bad_filepaths : list str)
      (all_metadata : DataFrame (str * str)) (subset genre_top : list cell) :
  read_csv path = Ok all_metadata →
  ((lit "set", lit "subset"), subset) ∈ columns all_metadata →
  ((lit "track", lit "genre_top"), genre_top) ∈ columns all_metadata →
  let small := (λ c, bool_decide (c = Some (SStr (lit "small")))) <$> subset in
  let track_ids := keep_rows small (row_labels (index all_metadata)) in
  let mp3 := Some ∘ SStr <$> all_filepaths in
  let bad := (λ c, bool_decide (c ∈ (Some ∘ SStr <$> bad_filepaths))) <$> mp3 in
  let good := negb <$> bad in
  length all_filepaths = length track_ids →
  read_metadata_file path all_filepaths bad_filepaths
  = Ok ({| index :=
             {| name := None;
                row_labels :=
                  keep_rows good (row_labels (RangeIndex (length track_ids))) |};
           columns :=
             [(SStr (lit "track_id"), keep_rows good track_ids);
              (SStr (lit "genre"), keep_rows good (keep_rows small genre_top));
              (SStr (lit "mp3_path"), keep_rows good mp3)] |},
        if decide (mask_sum bad ≠ 0)
        then [lit "Dropped "
                ++ lit (NilZero.string_of_uint (Nat.to_uint (length bad_filepaths)))
                ++ lit " rows from the dataframe."]
        else []).
Proof.
  intros Hcsv Hsubset Hgenre small track_ids mp3 bad good Hpaths.
  rewrite (read_metadata_file_small_rows _ _ _ _ _ _ Hcsv Hsubset Hgenre).
  fold small track_ids.
  pose proof (read_csv_wf _ _ Hcsv) as Hwf.
  unfold wf in Hwf. rewrite Forall_forall in Hwf.
  pose proof (Hwf _ Hsubset) as Hlen_subset.
  pose proof (Hwf _ Hgenre) as Hlen_genre. simpl in *.
  assert (Hlen_small : length (keep_rows small genre_top) = length track_ids).
  { apply keep_rows_length. congruence. }
  rewrite setitem_rows by (simpl; rewrite !length_fmap, length_seq; exact Hpaths).
  rewrite decide_False; [|intros Hin%(bool_decide_pack _); by vm_compute in Hin].
  cbn [index columns app mbind result_bind]. rewrite <- Hpaths.
  apply read_metadata_file_drop; congruence.
Qed.

(** The call on a table without a small row and with at least one path:
    assigning the paths gives the frame one row per path, with no track
    id and no genre. *)
Lemma read_metadata_file_no_rows
      (path : str) (all_filepaths bad_filepaths : list str)
      (all_metadata : DataFrame (str * str)) (subset genre_top : list cell) :
  read_csv path = Ok all_metadata →
  ((lit "set", lit "subset"), subset) ∈ columns all_metadata →
  ((lit "track", lit "genre_top"), genre_top) ∈ columns all_metadata →
  let small := (λ c, bool_decide (c = Some (SStr (lit "small")))) <$> subset in
  let mp3 := Some ∘ SStr <$> all_filepaths in
  let bad := (λ c, bool_decide (c ∈ (Some ∘ SStr <$> bad_filepaths))) <$> mp3 in
  let good := negb <$> bad in
  let nan := replicate (length all_filepaths) (@None scalar) in
  keep_rows small (row_labels (index all_metadata)) = [] →
  all_filepaths ≠ [] →
  read_metadata_file path all_filepaths bad_filepaths
  = Ok ({| index :=
             {| name := None;
                row_labels :=
                  keep_rows good (row_labels (RangeIndex (length all_filepaths))) |};
           columns :=
             [(SStr (lit "track_id"), keep_rows good nan);
              (SStr (lit "genre"), keep_rows good nan);
              (SStr (lit "mp3_path"), keep_rows good mp3)] |},
        if decide (mask_sum bad ≠ 0)
        then [lit "Dropped "
                ++ lit (NilZero.string_of_uint (Nat.to_uint (length bad_filepaths)))
                ++ lit " rows from the dataframe."]
        else []).
Proof.
  intros Hcsv Hsubset Hgenre small mp3 bad good nan Hnil Hne.
  rewrite (read_metadata_file_small_rows _ _ _ _ _ _ Hcsv Hsubset Hgenre).
  fold small. rewrite Hnil.
  rewrite setitem_no_rows; [|done|by destruct all_filepaths].
  cbn [index columns name fmap list_fmap prod_map fst snd id].
  rewrite decide_False; [|intros Hin%(bool_decide_pack _); by vm_compute in Hin].
  cbn [app mbind result_bind]. fold mp3.
  assert (Hlen_mp3 : length mp3 = length all_filepaths).
  { unfold mp3. by rewrite length_fmap. }
  rewrite Hlen_mp3. fold nan.
  apply read_metadata_file_drop; unfold nan; by rewrite length_replicate.
Qed.

(** X13: when the parsed table has no [('set', 'subset')] column, or no
    [('track', 'genre_top')] column, [read_metadata_file] raises
    [KeyError], whatever the paths are. *)
Theorem read_metadata_file_missing_column
        (path : str) (all_filepaths bad_filepaths : list str)
        (all_metadata : DataFrame (str * str)) :
  read_csv path = Ok all_metadata →
  (lit "set", lit "subset") ∉ (columns all_metadata).*1 ∨
  (lit "track", lit "genre_top") ∉ (columns all_metadata).*1 →
  read_metadata_file path all_filepaths bad_filepaths = Raise KeyError.
Proof.
  intros Hcsv Hmissing.
  pose proof (read_csv_labels _ _ Hcsv) as Hnd.
  assert (Hno_subset : (lit "set", lit "subset") ∉ (columns all_metadata).*1 →
            read_metadata_file path all_filepaths bad_filepaths = Raise KeyError).
  { intros Hnot. unfold read_metadata_file. rewrite Hcsv. simpl.
    unfold getitem, select, labelled.
    by rewrite (filter_label_absent _ _ Hnot). }
  destruct Hmissing as [Hnot|Hnot]; [by apply Hno_subset|].
  destruct (decide ((lit "set", lit "subset") ∈ (columns all_metadata).*1))
    as [Hin|Hnot']; [|by apply Hno_subset].
  apply list_elem_of_fmap in Hin as ([k subset] & Hk & Hin). simpl in Hk. subst k.
  unfold read_metadata_file. rewrite Hcsv. simpl.
  unfold getitem, select.
  unfold labelled at 1. rewrite (filter_label_unique _ _ _ Hnd Hin). simpl.
  unfold loc_columns. simpl. rewrite labelled_loc_rows.
  unfold labelled. by rewrite (filter_label_absent _ _ Hnot).
Qed.

(** X14: when the table has a row in the small subset, [all_filepaths]
    must hold exactly one path per such row: with both columns in the
    table, at least one small row and any other number of paths,
    [read_metadata_file] raises [ValueError]. *)
Theorem read_metadata_file_wrong_number_of_paths
        (path : str) (all_filepaths bad_filepaths : list str)
        (all_metadata : DataFrame (str * str)) (subset genre_top : list cell) :
  read_csv path = Ok all_metadata →
  ((lit "set", lit "subset"), subset) ∈ columns all_metadata →
  ((lit "track", lit "genre_top"), genre_top) ∈ columns all_metadata →
  let small := (λ c, bool_decide (c = Some (SStr (lit "small")))) <$> subset in
  let track_ids := keep_rows small (row_labels (index all_metadata)) in
  track_ids ≠ [] →
  length all_filepaths ≠ length track_ids →
  read_metadata_file path all_filepaths bad_filepaths = Raise ValueError.
Proof.
  intros Hcsv Hsubset Hgenre small track_ids Hrows Hpaths.
  rewrite (read_metadata_file_small_rows _ _ _ _ _ _ Hcsv Hsubset Hgenre).
  fold small track_ids. rewrite setitem_mismatch; [done | |].
  - simpl. by rewrite !length_fmap, length_seq.
  - left. simpl. by destruct track_ids.
Qed.


(** What a successful call says of its arguments: the two columns are in
    the table, and there is one path per small row, unless there is no
    small row at all. *)
Lemma read_metadata_file_Ok_inv
      (path : str) (all_filepaths bad_filepaths : list str)
      (df : DataFrame scalar) (printed : list str) :
  read_metadata_file path all_filepaths bad_filepaths = Ok (df, printed) →
  ∃ all_metadata subset genre_top,
    read_csv path = Ok all_metadata ∧
    ((lit "set", lit "subset"), subset) ∈ columns all_metadata ∧
    ((lit "track", lit "genre_top"), genre_top) ∈ columns all_metadata ∧
    let track_ids :=
      keep_rows ((λ c, bool_decide (c = Some (SStr (lit "small")))) <$> subset)
                (row_labels (index all_metadata)) in
    length all_filepaths = length track_ids ∨
    (track_ids = [] ∧ all_filepaths ≠ []).
Proof.
  intros Hok.
  destruct (read_csv path) as [all_metadata|] eqn:Hcsv;
    [|unfold read_metadata_file in Hok; rewrite Hcsv in Hok; discriminate].
  pose proof (read_csv_labels _ _ Hcsv) as Hnd.
  destruct (decide ((lit "set", lit "subset") ∈ (columns all_metadata).*1))
    as [Hin|Hnot].
  2: { unfold read_metadata_file in Hok. rewrite Hcsv in Hok. simpl in Hok.
       unfold getitem, select, labelled in Hok.
       rewrite (filter_label_absent _ _ Hnot) in Hok. discriminate. }
  apply list_elem_of_fmap in Hin as ([k subset] & Hk & Hsubset).
  simpl in Hk. subst k.
  destruct (decide ((lit "track", lit "genre_top") ∈ (columns all_metadata).*1))
    as [Hin|Hnot].
  2: { unfold read_metadata_file in Hok. rewrite Hcsv in Hok. simpl in Hok.
       unfold getitem, select in Hok. unfold labelled at 1 in Hok.
       rewrite (filter_label_unique _ _ _ Hnd Hsubset) in Hok. simpl in Hok.
       unfold loc_columns in Hok. simpl in Hok.
       rewrite labelled_loc_rows in Hok. unfold labelled at 1 in Hok.
       rewrite (filter_label_absent _ _ Hnot) in Hok. discriminate. }
  apply list_elem_of_fmap in Hin as ([k genre_top] & Hk & Hgenre).
  simpl in Hk. subst k.
  exists all_metadata, subset, genre_top. split_and!; try done.
  intros track_ids.
  destruct (decide (length all_filepaths = length track_ids)) as [|Hpaths];
    [by left | right].
  destruct (decide (track_ids = [])) as [Hnil|Hrows].
  - split; [done|]. intros ->. by rewrite Hnil in Hpaths.
  - rewrite (read_metadata_file_small_rows _ _ _ _ _ _ Hcsv Hsubset Hgenre) in Hok.
    rewrite setitem_mismatch in Hok; [discriminate | |].
    + simpl. by rewrite !length_fmap, length_seq.
    + left. simpl. fold track_ids. by destruct track_ids.
Qed.

Lemma keep_rows_replicate {A : Type} (mask : list bool) (n : nat) (x : A) :
  keep_rows mask (replicate n x)
  = replicate (length (keep_rows mask (replicate n x))) x.
Proof.
  revert n. induction mask as [|b mask IH]; intros n; [done|].
  destruct n as [|n]; cbn [replicate]; [by rewrite keep_rows_nil_r|].
  rewrite keep_rows_cons. destruct b; simpl.
  - by rewrite <- IH.
  - apply IH.
Qed.

(** X16: whenever [read_metadata_file] returns a frame, its columns are
    [track_id], [genre], [mp3_path]; each column has one entry per row; the
    row labels are pairwise distinct; the paths are paths of
    [all_filepaths] in their original order; and no path is in
    [bad_filepaths].  When the table has a small row there was one path
    per small row, and the track ids are row labels of the parsed table
    in their original order; when it has none, every track id and every
    genre of the frame is NaN. *)
Theorem read_metadata_file_frame_invariants
        (path : str) (all_filepaths bad_filepaths : list str)
        (df : DataFrame scalar) (printed : list str) :
  read_metadata_file path all_filepaths bad_filepaths = Ok (df, printed) →
  ∃ all_metadata subset track_ids genres mp3,
    read_csv path = Ok all_metadata ∧
    ((lit "set", lit "subset"), subset) ∈ columns all_metadata ∧
    columns df = [(SStr (lit "track_id"), track_ids);
                  (SStr (lit "genre"), genres);
                  (SStr (lit "mp3_path"), mp3)] ∧
    wf df ∧
    NoDup (row_labels (index df)) ∧
    mp3 `sublist_of` (Some ∘ SStr <$> all_filepaths) ∧
    (∀ p, p ∈ bad_filepaths → Some (SStr p) ∉ mp3) ∧
    let small_rows :=
      keep_rows ((λ c, bool_decide (c = Some (SStr (lit "small")))) <$> subset)
                (row_labels (index all_metadata)) in
    (small_rows ≠ [] →
     length all_filepaths = length small_rows ∧
     track_ids `sublist_of` small_rows) ∧
    (small_rows = [] →
     track_ids = replicate (length mp3) None ∧
     genres = replicate (length mp3) None).
Proof.
  intros Hok.
  destruct (read_metadata_file_Ok_inv _ _ _ _ _ Hok)
    as (all_metadata & subset & genre_top & Hcsv & Hsubset & Hgenre & Hpaths).
  set (small := (λ c, bool_decide (c = Some (SStr (lit "small")))) <$> subset) in *.
  set (small_rows := keep_rows small (row_labels (index all_metadata))) in *.
  set (mp3 := Some ∘ SStr <$> all_filepaths).
  set (bad := (λ c, bool_decide (c ∈ (Some ∘ SStr <$> bad_filepaths))) <$> mp3).
  set (good := negb <$> bad).
  pose proof (read_csv_wf _ _ Hcsv) as Hwf.
  unfold wf in Hwf. rewrite Forall_forall in Hwf.
  pose proof (Hwf _ Hsubset) as Hlen_subset.
  pose proof (Hwf _ Hgenre) as Hlen_genre. simpl in *.
  assert (Hlen_mp3 : length mp3 = length all_filepaths).
  { unfold mp3. by rewrite length_fmap. }
  assert (Hlen_small : length (keep_rows small genre_top) = length small_rows).
  { apply keep_rows_length. congruence. }
  assert (Hnd : ∀ n, NoDup (keep_rows good (row_labels (RangeIndex n)))).
  { intros n. eapply sublist_NoDup; [|apply keep_rows_sublist].
    apply (NoDup_fmap_2_strong _), NoDup_seq.
    intros i j _ _ [= Hij]. lia. }
  assert (Hno_bad : ∀ p, p ∈ bad_filepaths → Some (SStr p) ∉ keep_rows good mp3).
  { intros p Hp (i & Hi & Hx)%elem_of_keep_rows.
    unfold good, bad in Hi. rewrite !list_lookup_fmap, Hx in Hi.
    simpl in Hi. injection Hi as Hi.
    apply negb_true_iff, bool_decide_eq_false in Hi. apply Hi.
    apply list_elem_of_fmap. by exists p. }
  destruct Hpaths as [Hpaths|[Hnil Hne]].
  - rewrite (read_metadata_file_closed_form _ _ _ _ _ _ Hcsv Hsubset Hgenre Hpaths)
      in Hok.
    injection Hok as <- _. fold small small_rows mp3 bad good.
    eexists all_metadata, subset, _, _, _.
    split_and!; [done | done | reflexivity | | | | | |].
    + unfold wf. simpl. repeat constructor; simpl; apply keep_rows_length;
        rewrite length_fmap, length_seq; congruence.
    + apply Hnd.
    + apply keep_rows_sublist.
    + exact Hno_bad.
    + intros _. split; [done | apply keep_rows_sublist].
    + intros Hnil. fold small small_rows in Hnil.
      assert (all_filepaths = []) as Hall.
      { rewrite Hnil in Hpaths. by destruct all_filepaths. }
      subst mp3 bad good. rewrite Hall, Hnil in *. simpl in *.
      destruct (keep_rows small genre_top); done.
  - rewrite (read_metadata_file_no_rows _ _ _ _ _ _ Hcsv Hsubset Hgenre Hnil Hne)
      in Hok.
    injection Hok as <- _. fold mp3 bad good.
    assert (Hnan : keep_rows good (replicate (length all_filepaths) (@None scalar))
                   = replicate (length (keep_rows good mp3)) None).
    { rewrite keep_rows_replicate. f_equal.
      apply keep_rows_length. by rewrite length_replicate. }
    eexists all_metadata, subset, _, _, _.
    split_and!; [done | done | reflexivity | | | | | |].
    + unfold wf. simpl. repeat constructor; simpl; apply keep_rows_length;
        rewrite ?length_replicate, ?length_fmap, ?length_seq; congruence.
    + apply Hnd.
    + apply keep_rows_sublist.
    + exact Hno_bad.
    + done.
    + intros _. by rewrite Hnan.
Qed.

(** X22: on a table without a small row the number of paths is not
    checked.  Given at least one path, [read_metadata_file] returns a
    frame with one row per path that is not in [bad_filepaths], in which
    every track id and every genre is NaN. *)
Theorem read_metadata_file_without_small_rows
        (path : str) (all_filepaths bad_filepaths : list str)
        (all_metadata : DataFrame (str * str)) (subset genre_top : list cell) :
  read_csv path = Ok all_metadata →
  ((lit "set", lit "subset"), subset) ∈ columns all_metadata →
  ((lit "track", lit "genre_top"), genre_top) ∈ columns all_metadata →
  let small := (λ c, bool_decide (c = Some (SStr (lit "small")))) <$> subset in
  let mp3 := Some ∘ SStr <$> all_filepaths in
  let good := (λ c, bool_decide (c ∉ (Some ∘ SStr <$> bad_filepaths))) <$> mp3 in
  let kept := keep_rows good mp3 in
  keep_rows small (row_labels (index all_metadata)) = [] →
  all_filepaths ≠ [] →
  ∃ printed,
    read_metadata_file path all_filepaths bad_filepaths
    = Ok ({| index :=
               {| name := None;
                  row_labels :=
                    keep_rows good (row_labels (RangeIndex (length all_filepaths))) |};
             columns :=
               [(SStr (lit "track_id"), replicate (length kept) None);
                (SStr (lit "genre"), replicate (length kept) None);
                (SStr (lit "mp3_path"), kept)] |},
          printed) ∧
    ∀ p, p ∈ all_filepaths → (Some (SStr p) ∈ kept ↔ p ∉ bad_filepaths).
Proof.
  intros Hcsv Hsubset Hgenre small mp3 good kept Hnil Hne.
  rewrite (read_metadata_file_no_rows _ _ _ _ _ _ Hcsv Hsubset Hgenre Hnil Hne).
  fold mp3.
  assert (Hgood : negb <$> ((λ c, bool_decide (c ∈ (Some ∘ SStr <$> bad_filepaths)))
                              <$> mp3) = good).
  { symmetry. apply (isin_good {| s_index := RangeIndex 0; s_values := mp3 |}). }
  rewrite Hgood.
  assert (Hlen_mp3 : length mp3 = length all_filepaths).
  { unfold mp3. by rewrite length_fmap. }
  assert (Hlen_good : length good = length all_filepaths).
  { unfold good. by rewrite length_fmap. }
  assert (Hnan : keep_rows good (replicate (length all_filepaths) (@None scalar))
                 = replicate (length kept) None).
  { rewrite keep_rows_replicate. f_equal.
    apply keep_rows_length. by rewrite length_replicate. }
  rewrite Hnan. fold kept. eexists. split; [reflexivity|].
  intros p Hp. split.
  - intros (i & Hi & Hx)%elem_of_keep_rows Hbad.
    unfold good in Hi. rewrite list_lookup_fmap, Hx in Hi.
    injection Hi as Hi. apply bool_decide_eq_true in Hi. apply Hi.
    apply list_elem_of_fmap. by exists p.
  - intros Hnot. apply elem_of_keep_rows.
    apply list_elem_of_lookup in Hp as [i Hi]. exists i.
    unfold good, mp3. rewrite !list_lookup_fmap, Hi. simpl.
    split; [|done]. f_equal. apply bool_decide_eq_true.
    intros (q & [= ->] & Hq)%list_elem_of_fmap. done.
Qed.

(** X17: from the table to the generator.  When every row of the small
    subset has a genre and none is spelled track_id, genre or mp3_path, the
    frame that [read_metadata_file] returns can be encoded and handed to
    the generator: the generator holds exactly the paths that were kept,
    none of them in [bad_filepaths], one label row per path, each row
    one-hot. *)
Theorem generator_from_metadata
        (path : str) (all_filepaths bad_filepaths : list str)
        (all_metadata : DataFrame (str * str)) (subset genre_top : list cell)
        (c : cell) (b sr_ d : Z) :
  read_csv path = Ok all_metadata →
  ((lit "set", lit "subset"), subset) ∈ columns all_metadata →
  ((lit "track", lit "genre_top"), genre_top) ∈ columns all_metadata →
  let small := (λ c, bool_decide (c = Some (SStr (lit "small")))) <$> subset in
  let track_ids := keep_rows small (row_labels (index all_metadata)) in
  length all_filepaths = length track_ids →
  Forall (λ gc, ∃ v, gc = Some v ∧
                     v ∉ [SStr (lit "track_id"); SStr (lit "genre");
                          SStr (lit "mp3_path")])
         (keep_rows small genre_top) →
  ∃ df printed g,
    read_metadata_file path all_filepaths bad_filepaths = Ok (df, printed) ∧
    (attach_onehot_encoding df c
       ≫= λ encoded, Batch_generator.__init__ encoded b sr_ d) = Ok g ∧
    mp3_paths g `sublist_of` (Some ∘ SStr <$> all_filepaths) ∧
    (∀ p, p ∈ bad_filepaths → Some (SStr p) ∉ mp3_paths g) ∧
    (∀ p, p ∈ all_filepaths → p ∉ bad_filepaths → Some (SStr p) ∈ mp3_paths g) ∧
    length (cells2 (labels g)) = length (mp3_paths g) ∧
    Forall one_hot (cells2 (labels g)).
Proof.
  intros Hcsv Hsubset Hgenre small track_ids Hpaths Hgenres.
  rewrite (read_metadata_file_closed_form _ _ _ _ _ _ Hcsv Hsubset Hgenre Hpaths).
  fold small track_ids.
  set (mp3 := Some ∘ SStr <$> all_filepaths).
  set (bad := (λ c, bool_decide (c ∈ (Some ∘ SStr <$> bad_filepaths))) <$> mp3).
  set (good := negb <$> bad).
  set (genres := keep_rows good (keep_rows small genre_top)).
  pose proof (read_csv_wf _ _ Hcsv) as Hwf.
  unfold wf in Hwf. rewrite Forall_forall in Hwf.
  pose proof (Hwf _ Hsubset) as Hlen_subset.
  pose proof (Hwf _ Hgenre) as Hlen_genre. simpl in *.
  assert (Hlen_mp3 : length mp3 = length track_ids).
  { unfold mp3. by rewrite length_fmap. }
  assert (Hlen_small : length (keep_rows small genre_top) = length track_ids).
  { apply keep_rows_length. congruence. }
  set (df := {| index := _; columns := _ |}).
  assert (Hnd : NoDup (columns df).*1) by by_computation.
  assert (Hg : (SStr (lit "genre"), genres) ∈ columns df)
    by (right; left).
  assert (Hp : (SStr (lit "mp3_path"), keep_rows good mp3) ∈ columns df)
    by (right; right; left).
  assert (Hwf_df : wf df).
  { unfold wf. simpl. repeat constructor; simpl; apply keep_rows_length;
      rewrite length_fmap, length_seq; congruence. }
  rewrite Forall_forall in Hgenres.
  assert (Hfresh : ∀ v, Some v ∈ genres → v ∉ (columns df).*1).
  { intros v Hv. apply keep_rows_subseteq in Hv.
    destruct (Hgenres _ Hv) as (v' & [= <-] & Hnot). exact Hnot. }
  assert (Hnan : None ∉ genres).
  { intros Hin. apply keep_rows_subseteq in Hin.
    destruct (Hgenres _ Hin) as (v' & [=] & _). }
  eexists df, _, _. split; [reflexivity|].
  rewrite (attach_with_dummies df genres Hnd Hg). simpl.
  rewrite (init_with_dummies df genres _ Hnd Hg Hp Hfresh) by done.
  split; [reflexivity|]. cbn [mp3_paths labels]. split_and!.
  - apply keep_rows_sublist.
  - intros p Hp' (i & Hi & Hx)%elem_of_keep_rows.
    unfold good, bad in Hi. rewrite !list_lookup_fmap, Hx in Hi.
    simpl in Hi. injection Hi as Hi.
    apply negb_true_iff, bool_decide_eq_false in Hi. apply Hi.
    apply list_elem_of_fmap. by exists p.
  - intros p Hin Hnot. apply elem_of_keep_rows.
    apply list_elem_of_lookup in Hin as [i Hi]. exists i.
    unfold good, bad, mp3. rewrite !list_lookup_fmap, Hi. simpl.
    split; [|done]. f_equal. apply negb_true_iff, bool_decide_eq_false.
    intros (q & [= ->] & Hq)%list_elem_of_fmap. done.
  - simpl. rewrite length_fmap, length_seq.
    symmetry. apply keep_rows_length. by rewrite length_fmap, length_seq.
  - by apply (encoded_rows_one_hot df genres).
Qed.

End MetadataProperties.

(** ** Encoding once, and twice *)

Section EncodingProperties.
Context `{Pandas}.
Import Batch_generator.
Variables (df : DataFrame scalar) (genres paths : list cell).
Hypothesis Hlabels : NoDup (columns df).*1.
Hypothesis Hgenre : (SStr (lit "genre"), genres) ∈ columns df.
Hypothesis Hwf : wf df.

(** X18: on a rectangular frame with one ['genre'] column,
    [attach_onehot_encoding] returns a rectangular frame over the same
    index that keeps the columns of [df] and adds exactly one column per
    distinct genre that is not missing; the column of a genre holds 1 in
    the rows of that genre and 0 in all others, so a row without a genre is
    0 in every added column. *)
Theorem attach_onehot_encoding_columns (c : cell) :
  ∃ df' dummies,
    attach_onehot_encoding df c = Ok df' ∧
    index df' = index df ∧ wf df' ∧
    columns df' = columns df ++ dummies ∧
    dummies.*1 ≡ₚ omap id (unique genres) ∧
    NoDup dummies.*1 ∧
    ∀ v col, (v, col) ∈ dummies →
      length col = length genres ∧
      ∀ r gc, genres !! r = Some gc →
              col !! r = Some (Some (SInt (if decide (gc = Some v) then 1 else 0))).
Proof.
  rewrite (attach_with_dummies df genres Hlabels Hgenre).
  assert (Hlen : length genres = length (row_labels (index df))).
  { pose proof Hwf as Hall. unfold wf in Hall. rewrite Forall_forall in Hall.
    exact (Hall _ Hgenre). }
  assert (Hnames : ((λ v, (v, indicator genres v)) <$> levels genres).*1
                   = levels genres).
  { rewrite <- list_fmap_compose. apply list_fmap_id. }
  eexists _, _. split; [reflexivity|]. simpl. split_and!.
  - done.
  - unfold wf. simpl. apply Forall_app. split; [exact Hwf|].
    apply Forall_fmap, Forall_forall. intros v _. simpl.
    unfold indicator. by rewrite length_fmap.
  - done.
  - rewrite Hnames. unfold levels. apply sort_levels_perm.
  - rewrite Hnames. apply NoDup_levels.
  - intros v col (v' & [= -> ->] & _)%list_elem_of_fmap. unfold indicator.
    split; [by rewrite length_fmap|].
    intros r gc Hr. by rewrite list_lookup_fmap, Hr.
Qed.

Hypothesis Hpaths : (SStr (lit "mp3_path"), paths) ∈ columns df.
Hypothesis Hfresh : ∀ v, Some v ∈ genres → v ∉ (columns df).*1.

Lemma twice_labelled_old (k : scalar) (v : list cell) :
  (k, v) ∈ columns df →
  filter (λ col, col.1 = k)
         ((columns df ++ ((λ v, (v, indicator genres v)) <$> levels genres))
            ++ ((λ v, (v, indicator genres v)) <$> levels genres))
  = [(k, v)].
Proof.
  intros Hin.
  rewrite !filter_app, (filter_label_unique _ _ _ Hlabels Hin), dummies_labelled.
  destruct (decide (Some k ∈ genres)) as [Hk|]; [|done].
  destruct (Hfresh k Hk). apply list_elem_of_fmap. by exists (k, v).
Qed.

Lemma twice_labelled_new (k : scalar) :
  Some k ∈ genres →
  filter (λ col, col.1 = k)
         ((columns df ++ ((λ v, (v, indicator genres v)) <$> levels genres))
            ++ ((λ v, (v, indicator genres v)) <$> levels genres))
  = [(k, indicator genres k); (k, indicator genres k)].
Proof.
  intros Hk.
  rewrite !filter_app, (filter_label_absent _ _ (Hfresh k Hk)), dummies_labelled.
  by rewrite decide_True.
Qed.

Lemma concat_present_twice {A B : Type} (f : A → B) (l : list (option A)) :
  concat ((λ key, match key with Some k => [f k; f k] | None => [] end) <$> l)
  = concat ((λ k, [f k; f k]) <$> omap id l).
Proof.
  induction l as [|[k|] l IH]; simpl; [done | do 2 f_equal; apply IH | apply IH].
Qed.

Lemma concat_pairs_fmap {A B : Type} (f : A → B) (l : list A) :
  concat ((λ k, [f k; f k]) <$> l) = f <$> concat ((λ k, [k; k]) <$> l).
Proof.
  induction l as [|k l IH]; [done|]. simpl. do 2 f_equal. exact IH.
Qed.

Lemma length_concat_pairs {A : Type} (l : list A) :
  length (concat ((λ k, [k; k]) <$> l)) = (2 * length l)%nat.
Proof.
  induction l as [|k l IH]; [done|].
  change (S (S (length (concat ((λ k, [k; k]) <$> l))))
          = (2 * S (length l))%nat).
  rewrite IH. lia.
Qed.

Lemma filter_doubled {A B : Type} (P : B → Prop) `{∀ x, Decision (P x)}
      (f : A → B) (l : list A) :
  length (filter P ((λ col, f col) <$> concat ((λ k, [k; k]) <$> l)))
  = (2 * length (filter P (f <$> l)))%nat.
Proof.
  induction l as [|x l IH]; [done|].
  change (length (filter P (f x :: f x
                              :: ((λ col, f col) <$> concat ((λ k, [k; k]) <$> l))))
          = (2 * length (filter P (f x :: (f <$> l))))%nat).
  destruct (decide (P (f x))).
  - rewrite !filter_cons_True by done. simpl. rewrite IH. lia.
  - rewrite !filter_cons_False by done. exact IH.
Qed.

(** X19: encoding is not idempotent.  A second call of
    [attach_onehot_encoding] appends the same dummy columns once more, and a
    generator built from the twice-encoded frame selects both copies: its
    label array has two columns per genre and none of its rows is
    one-hot. *)
Theorem attach_twice_breaks_one_hot (c c' : cell) (b sr_ d : Z) :
  None ∉ genres →
  let dummies := (λ v, (v, indicator genres v)) <$> levels genres in
  ∃ g,
    (attach_onehot_encoding df c ≫= λ once, attach_onehot_encoding once c')
    = Ok {| index := index df; columns := (columns df ++ dummies) ++ dummies |} ∧
    __init__ {| index := index df; columns := (columns df ++ dummies) ++ dummies |}
             b sr_ d = Ok g ∧
    shape2 (labels g) = (length (row_labels (index df)),
                         (2 * length (omap id (unique genres)))%nat) ∧
    Forall (λ row, ¬ one_hot row) (cells2 (labels g)).
Proof.
  intros Hnan dummies. subst dummies.
  rewrite (attach_with_dummies df genres Hlabels Hgenre). simpl.
  unfold attach_onehot_encoding, getattr, select, labelled. simpl.
  rewrite filter_app, (filter_label_unique _ _ _ Hlabels Hgenre), dummies_labelled.
  destruct (decide (Some (SStr (lit "genre")) ∈ genres)) as [Hk|_].
  { destruct (Hfresh _ Hk). apply list_elem_of_fmap.
    by exists (SStr (lit "genre"), genres). }
  simpl.
  unfold __init__, getitem, getattr, select, labelled. simpl.
  rewrite (twice_labelled_old _ _ Hpaths), (twice_labelled_old _ _ Hgenre).
  simpl. unfold loc_columns.
  rewrite (mapM_Ok_fmap _ (λ key, match key with
                                  | Some k => [(k, indicator genres k);
                                               (k, indicator genres k)]
                                  | None => []
                                  end)).
  2: { intros key Hkey. pose proof (proj1 (elem_of_unique _ _) Hkey) as Hk.
       destruct key as [k|]; [|by destruct Hnan].
       unfold labelled. simpl. by rewrite (twice_labelled_new _ Hk). }
  simpl. eexists. split; [reflexivity|]. split; [reflexivity|]. simpl.
  rewrite (concat_present_twice (λ k, (k, indicator genres k))).
  rewrite (concat_pairs_fmap (λ k, (k, indicator genres k))). split.
  - by rewrite length_fmap, length_concat_pairs.
  - apply Forall_fmap, Forall_forall. intros r _. simpl.
    intros [Hone _]. rewrite <- list_fmap_compose in Hone.
    rewrite (filter_doubled (λ cell_, cell_ = Some (SInt 1))) in Hone. lia.
Qed.

End EncodingProperties.

(** ** The metadata properties on the sample table *)

Lemma read_metadata_file_missing_column_witness :
  @read_metadata_file
    (sample_pandas [(lit "tracks.csv", sample_tracks_without_genre)])
    (lit "tracks.csv") [lit "a.mp3"] [] = Raise KeyError.
Proof.
  apply (@read_metadata_file_missing_column
           (sample_pandas [(lit "tracks.csv", sample_tracks_without_genre)])
           (lit "tracks.csv") [lit "a.mp3"] [] sample_tracks_without_genre).
  - vm_compute. reflexivity.
  - right. by_computation.
Defined.

Lemma read_metadata_file_wrong_number_of_paths_witness :
  @read_metadata_file (sample_pandas [(lit "tracks.csv", sample_tracks)])
    (lit "tracks.csv") [lit "a.mp3"] [] = Raise ValueError.
Proof.
  apply (@read_metadata_file_wrong_number_of_paths
           (sample_pandas [(lit "tracks.csv", sample_tracks)])
           (lit "tracks.csv") [lit "a.mp3"] [] sample_tracks
           [Some (SStr (lit "small")); Some (SStr (lit "medium"));
            Some (SStr (lit "small"))]
           [Some (SStr (lit "Rock")); Some (SStr (lit "Pop"));
            Some (SStr (lit "Folk"))]).
  - vm_compute. reflexivity.
  - by_computation.
  - by_computation.
  - vm_compute. discriminate.
  - vm_compute. lia.
Defined.


Lemma read_metadata_file_frame_invariants_witness :
  ∃ df printed,
    @read_metadata_file (sample_pandas [(lit "tracks.csv", sample_tracks)])
      (lit "tracks.csv") [lit "a.mp3"; lit "bb.mp3"] [lit "bb.mp3"]
    = Ok (df, printed) ∧
    wf df ∧ NoDup (row_labels (index df)).
Proof.
  do 2 eexists. split; [vm_compute; reflexivity|].
  destruct (@read_metadata_file_frame_invariants
              (sample_pandas [(lit "tracks.csv", sample_tracks)])
              (lit "tracks.csv") [lit "a.mp3"; lit "bb.mp3"] [lit "bb.mp3"]
              {| index := {| name := None; row_labels := [Some (SInt 0)] |};
                 columns := [(SStr (lit "track_id"), [Some (SInt 2)]);
                             (SStr (lit "genre"), [Some (SStr (lit "Rock"))]);
                             (SStr (lit "mp3_path"), [Some (SStr (lit "a.mp3"))])] |}
              [lit "Dropped 1 rows from the dataframe."])
    as (_ & _ & _ & _ & _ & _ & _ & _ & Hwf & Hnd & _).
  - vm_compute. reflexivity.
  - split; [exact Hwf | exact Hnd].
Defined.

Lemma read_metadata_file_without_small_rows_witness :
  ∃ printed,
    @read_metadata_file
      (sample_pandas [(lit "tracks.csv", sample_tracks_without_small)])
      (lit "tracks.csv") [lit "a.mp3"; lit "bb.mp3"; lit "c.mp3"] [lit "bb.mp3"]
    = Ok ({| index := {| name := None;
                         row_labels := [Some (SInt 0); Some (SInt 2)] |};
             columns := [(SStr (lit "track_id"), [None; None]);
                         (SStr (lit "genre"), [None; None]);
                         (SStr (lit "mp3_path"),
                          [Some (SStr (lit "a.mp3")); Some (SStr (lit "c.mp3"))])] |},
          printed).
Proof.
  destruct (@read_metadata_file_without_small_rows
              (sample_pandas [(lit "tracks.csv", sample_tracks_without_small)])
              (lit "tracks.csv") [lit "a.mp3"; lit "bb.mp3"; lit "c.mp3"]
              [lit "bb.mp3"] sample_tracks_without_small
              [Some (SStr (lit "medium")); Some (SStr (lit "large"))]
              [Some (SStr (lit "Rock")); Some (SStr (lit "Pop"))])
    as (printed & Hresult & _).
  - vm_compute. reflexivity.
  - by_computation.
  - by_computation.
  - vm_compute. reflexivity.
  - discriminate.
  - exists printed. exact Hresult.
Defined.

Lemma generator_from_metadata_witness :
  ∃ df printed g,
    @read_metadata_file (sample_pandas [(lit "tracks.csv", sample_tracks)])
      (lit "tracks.csv") [lit "a.mp3"; lit "bb.mp3"] [lit "bb.mp3"]
    = Ok (df, printed) ∧
    (@attach_onehot_encoding (sample_pandas [(lit "tracks.csv", sample_tracks)])
       df None
       ≫= λ encoded, Batch_generator.__init__ encoded 2 22050 30) = Ok g ∧
    Forall one_hot (cells2 (labels g)).
Proof.
  destruct (@generator_from_metadata
              (sample_pandas [(lit "tracks.csv", sample_tracks)])
              (lit "tracks.csv") [lit "a.mp3"; lit "bb.mp3"] [lit "bb.mp3"]
              sample_tracks
              [Some (SStr (lit "small")); Some (SStr (lit "medium"));
               Some (SStr (lit "small"))]
              [Some (SStr (lit "Rock")); Some (SStr (lit "Pop"));
               Some (SStr (lit "Folk"))]
              None 2 22050 30)
    as (df & printed & g & Hread & Hg & _ & _ & _ & _ & Hone).
  - vm_compute. reflexivity.
  - by_computation.
  - by_computation.
  - vm_compute. reflexivity.
  - repeat constructor; eexists; (split; [reflexivity | by_computation]).
  - exists df, printed, g. split; [exact Hread|]. split; [exact Hg | exact Hone].
Defined.

Lemma attach_onehot_encoding_columns_witness :
  ∃ df' dummies,
    @attach_onehot_encoding (sample_pandas []) sample_metadata None = Ok df' ∧
    columns df' = columns sample_metadata ++ dummies ∧
    NoDup dummies.*1.
Proof.
  destruct (@attach_onehot_encoding_columns (sample_pandas []) sample_metadata
              [Some (SStr (lit "Rock")); Some (SStr (lit "Folk"))])
    with (c := @None scalar)
    as (df' & dummies & Hattach & _ & _ & Hcols & _ & Hnd & _).
  - by_computation.
  - by_computation.
  - unfold wf. by_computation.
  - exists df', dummies. split; [exact Hattach|]. split; [exact Hcols | exact Hnd].
Defined.

Lemma attach_twice_breaks_one_hot_witness :
  ∃ twice g,
    (@attach_onehot_encoding (sample_pandas []) sample_metadata None
       ≫= λ once, @attach_onehot_encoding (sample_pandas []) once None)
    = Ok twice ∧
    Batch_generator.__init__ twice 2 22050 30 = Ok g ∧
    Forall (λ row, ¬ one_hot row) (cells2 (labels g)).
Proof.
  destruct (@attach_twice_breaks_one_hot (sample_pandas []) sample_metadata
              [Some (SStr (lit "Rock")); Some (SStr (lit "Folk"))]
              [Some (SStr (lit "a.mp3")); Some (SStr (lit "bb.mp3"))])
    with (c := @None scalar) (c' := @None scalar) (b := 2) (sr_ := 22050) (d := 30)
    as (g & Htwice & Hg & _ & Hnot).
  - by_computation.
  - by_computation.
  - by_computation.
  - fresh_by_computation.
  - by_computation.
  - eexists _, g. split; [exact Htwice|]. split; [exact Hg | exact Hnot].
Defined.

(** ** Edge cases of the generator *)

Section GeneratorEdges.
Context `{Librosa}.
Import Batch_generator.

(** X20: with a batch size of 0 the generator is unusable: [__len__]
    raises [ZeroDivisionError], and [__getitem__] raises [ValueError] at
    every index, because each slice is empty. *)
Theorem batch_size_zero (self : Batch_generator) (idx : Z) :
  batch_size self = 0 →
  __len__ self = Raise ZeroDivisionError ∧
  batch_x self idx = [] ∧
  __getitem__ self idx = Raise ValueError.
Proof.
  intros Hb.
  assert (Hx : batch_x self idx = []).
  { unfold batch_x, slice, adjust_index. rewrite Hb, !Z.mul_0_r. simpl.
    replace (Z.to_nat _) with 0%nat by lia. done. }
  split_and!.
  - unfold __len__. rewrite Hb.
    destruct (decide (float_overflows 0)) as [Hfl|_]; [|done].
    unfold float_overflows in Hfl. simpl in Hfl. lia.
  - done.
  - unfold __getitem__. by rewrite Hx.
Qed.

Lemma mapM_app_Raise {A B : Type} (f : A → result B)
      (before after : list A) (x : A) (done_ : list B) (e : exn) :
  mapM f before = Ok done_ → f x = Raise e →
  mapM f (before ++ x :: after) = Raise e.
Proof.
  revert done_. induction before as [|y l IH]; intros done_ Hbefore Hx.
  - simpl. by rewrite Hx.
  - simpl in Hbefore. destruct (f y) as [b|] eqn:Hy; [|discriminate].
    simpl in Hbefore. destruct (mapM f l) as [k|] eqn:Hl; [|discriminate].
    change (mapM f ((y :: l) ++ x :: after))
      with (b' ← f y; k' ← mapM f (l ++ x :: after); mret (b' :: k')).
    rewrite Hy. simpl. by rewrite (IH k).
Qed.

(** X21: every file of a batch is loaded before any spectrogram is
    computed, so when the files before some file load and that file does
    not, [_stack_melspecs] and [__getitem__] raise the loader's exception
    for that file, whatever the spectrograms of the earlier files are. *)
Theorem stack_melspecs_first_load_error
        (self : Batch_generator) (before after : list cell) (file : cell)
        (sources : list audio) (e : exn) :
  mapM (λ file, load file (sr self) (sr self)) before = Ok sources →
  load file (sr self) (sr self) = Raise e →
  _stack_melspecs self (before ++ file :: after) = Raise e ∧
  ∀ idx, batch_x self idx = before ++ file :: after →
         __getitem__ self idx = Raise e.
Proof.
  intros Hbefore Hfile.
  assert (Hstack : _stack_melspecs self (before ++ file :: after) = Raise e).
  { unfold _stack_melspecs.
    by rewrite (mapM_app_Raise _ _ _ _ _ _ Hbefore Hfile). }
  split; [done|]. intros idx Hx. unfold __getitem__. by rewrite Hx, Hstack.
Qed.

End GeneratorEdges.

Lemma batch_size_zero_witness :
  @Batch_generator.__getitem__ _ sample_librosa
    {| mp3_paths := [Some (SStr (lit "a.mp3"))];
       labels := {| shape2 := (1, 1)%nat; cells2 := [[Some (SInt 1)]] |};
       batch_size := 0; sr := 22050; duration := 30 |} 0
  = Raise ValueError.
Proof.
  apply (@batch_size_zero _ sample_librosa
           {| mp3_paths := [Some (SStr (lit "a.mp3"))];
              labels := {| shape2 := (1, 1)%nat; cells2 := [[Some (SInt 1)]] |};
              batch_size := 0; sr := 22050; duration := 30 |} 0).
  reflexivity.
Defined.

Lemma stack_melspecs_first_load_error_witness :
  @Batch_generator._stack_melspecs _ sample_librosa (sample_generator 30)
    [Some (SStr (lit "a.mp3")); None; Some (SStr (lit "c.mp3"))]
  = Raise LibraryError.
Proof.
  apply (@stack_melspecs_first_load_error _ sample_librosa (sample_generator 30)
           [Some (SStr (lit "a.mp3"))] [Some (SStr (lit "c.mp3"))] None
           [5%nat] LibraryError); reflexivity.
Defined.
